(** * Mixed-radix positional numbers ([histropy.units.radices])

    A shallow embedding of [RadixBase] and [BasedReal]: Python integers are
    [Z], Python floats are IEEE 754 binary64 primitive floats, tuples are
    lists, strings are [string], and every call that may raise returns a
    [result]. *)

From stdpp Require Import base gmap strings.
From Stdlib Require Import ZArith List String Ascii DecimalString Lia Bool.
From Stdlib Require Import PrimFloat SpecFloat FloatOps FloatAxioms.
Import ListNotations.

Local Open Scope Z_scope.

(** ** Exceptions and the error monad *)

(** The exception classes the module raises or lets through.  The spec
    calls [IllegalBaseValueError] InvalidRadix, [IllegalFloatValueError]
    InvalidDigit and [ValueError] BadFormat.  [Diverges] is not a Python
    exception: it marks a [while] loop that never ends. *)
Inductive exn : Type :=
  | ValueError
  | TypeError
  | IndexError
  | AttributeError
  | OverflowError
  | ZeroDivisionError
  | NotImplementedError
  | EmptyStringException
  | TooManySeparators
  | TypeMismatch
  | IllegalFloatValueError
  | IllegalBaseValueError
  | Diverges.

Inductive result (A : Type) : Type :=
  | Ok (a : A)
  | Raise (e : exn).

Arguments Ok {A} a.
Arguments Raise {A} e.

Definition bind {A B : Type} (r : result A) (k : A -> result B) : result B :=
  match r with
  | Ok a => k a
  | Raise e => Raise e
  end.

Notation "'let*' x ':=' c1 'in' c2" := (bind c1 (fun x => c2))
  (at level 10, x pattern, c1 at level 100, c2 at level 200).

(** ** Python integers and sequences *)

Definition len {A : Type} (l : list A) : Z := Z.of_nat (List.length l).

(** [n % d] and [n // d] on integers: floor semantics, [ZeroDivisionError]
    on a zero divisor. *)
Definition py_mod (n d : Z) : result Z :=
  if d =? 0 then Raise ZeroDivisionError else Ok (n mod d).

Definition py_floordiv (n d : Z) : result Z :=
  if d =? 0 then Raise ZeroDivisionError else Ok (n / d).

(** A slice bound, clamped the way Python clamps it for a positive step:
    a negative bound counts from the end. *)
Definition clamp {A : Type} (l : list A) (i : Z) : nat :=
  let n := len l in
  Z.to_nat (Z.max 0 (Z.min n (if i <? 0 then i + n else i))).

(** [l[a:b]] with either bound possibly [None]. *)
Definition slice {A : Type} (l : list A) (a b : option Z) : list A :=
  let lo := match a with Some i => clamp l i | None => 0%nat end in
  let hi := match b with Some i => clamp l i | None => List.length l end in
  firstn (hi - lo) (skipn lo l).

(** [(x,) * n]: empty when [n <= 0]. *)
Definition repeat_tuple {A : Type} (x : A) (n : Z) : list A :=
  repeat x (Z.to_nat n).

(** [list.insert(0, x)] *)
Definition insert0 {A : Type} (x : A) (l : list A) : list A := x :: l.

(** In-place [array[i] += v] on a Python list; [IndexError] out of range
    (indices here are never negative). *)
Fixpoint add_at (array : list Z) (i : nat) (v : Z) : result (list Z) :=
  match array, i with
  | [], _ => Raise IndexError
  | x :: t, O => Ok ((x + v) :: t)
  | x :: t, S j => let* t' := add_at t j v in Ok (x :: t')
  end.

Fixpoint set_at (array : list Z) (i : nat) (v : Z) : result (list Z) :=
  match array, i with
  | [], _ => Raise IndexError
  | _ :: t, O => Ok (v :: t)
  | x :: t, S j => let* t' := set_at t j v in Ok (x :: t')
  end.

Definition get_at (array : list Z) (i : nat) : result Z :=
  match nth_error array i with
  | Some x => Ok x
  | None => Raise IndexError
  end.

(** ** Python floats *)

Local Open Scope float_scope.

(** [float(n)] for an integer [n]: the nearest binary64 value, ties to
    even; [OverflowError] when [n] is too large. *)
Definition float_of_int (n : Z) : result float :=
  let f := SF2Prim (binary_normalize prec emax n 0 false) in
  if is_infinity f then Raise OverflowError else Ok f.

(** [int(x)] for a float [x]: truncation towards zero; [ValueError] on a
    NaN, [OverflowError] on an infinity. *)
Definition int_of_float (x : float) : result Z :=
  match Prim2SF x with
  | S754_nan => Raise ValueError
  | S754_infinity _ => Raise OverflowError
  | S754_zero _ => Ok 0%Z
  | S754_finite s m e =>
      let mag := if (0 <=? e)%Z then (Z.pos m * 2 ^ e)%Z
                 else (Z.pos m / 2 ^ (- e))%Z in
      Ok (if s then (- mag)%Z else mag)
  end.

(** [x >= n] for a float [x] and an integer [n].  Python compares the two
    exactly, without rounding [n] to a float. *)
Definition float_ge_int (x : float) (n : Z) : bool :=
  match Prim2SF x with
  | S754_nan => false
  | S754_infinity s => negb s
  | S754_zero _ => (n <=? 0)%Z
  | S754_finite s m e =>
      let v := if s then Z.neg m else Z.pos m in
      if (0 <=? e)%Z then (n <=? v * 2 ^ e)%Z
      else (n * 2 ^ (- e) <=? v)%Z
  end.

(** [x / y] on floats raises on a zero divisor instead of returning an
    infinity or a NaN. *)
Definition py_fdiv (x y : float) : result float :=
  if y =? 0 then Raise ZeroDivisionError else Ok (x / y).

(** [x * n], [x / n], [x - n] with a float [x] and an integer [n]: the
    integer is converted first. *)
Definition fmul_int (x : float) (n : Z) : result float :=
  let* f := float_of_int n in Ok (x * f).

Definition fdiv_int (x : float) (n : Z) : result float :=
  let* f := float_of_int n in py_fdiv x f.

Definition fsub_int (x : float) (n : Z) : result float :=
  let* f := float_of_int n in Ok (x - f).

(** [x >= y], [x > y] on floats. *)
Definition fge (x y : float) : bool := y <=? x.
Definition fgt (x y : float) : bool := y <? x.

(** [int(np.sign(x))] for a float [x]; a NaN has no integer sign. *)
Definition np_sign (x : float) : result Z :=
  if is_nan x then Raise ValueError
  else if x <? 0 then Ok (-1)%Z
  else if 0 <? x then Ok 1%Z
  else Ok 0%Z.

(** [a / b] on two integers: the float nearest to the exact quotient, ties
    to even ([0 / b] is a zero of the sign of [b]); [ZeroDivisionError] on
    a zero divisor, [OverflowError] when the quotient is too large.  The
    quotient is taken with more than 64 bits and a last bit that records a
    non-zero rest, so that the single rounding to 53 bits is the rounding
    of the exact quotient. *)
Definition int_truediv (a b : Z) : result float :=
  if (b =? 0)%Z then Raise ZeroDivisionError
  else if (a =? 0)%Z then Ok (if (b <? 0)%Z then neg_zero else zero)
  else
    let negate := xorb (a <? 0)%Z (b <? 0)%Z in
    let k := Z.max 0 (Z.log2 (Z.abs b) - Z.log2 (Z.abs a) + 66)%Z in
    let n := (Z.abs a * 2 ^ k)%Z in
    let q := (n / Z.abs b)%Z in
    let sticky := if (n mod Z.abs b =? 0)%Z then 0%Z else 1%Z in
    let m := (2 * q + sticky)%Z in
    let f := SF2Prim (binary_normalize prec emax (if negate then (- m)%Z else m)
                        (- k - 1) false) in
    if is_infinity f then Raise OverflowError else Ok f.

Local Close Scope float_scope.

(** ** Python strings (ASCII) *)

Module PyStr.

Definition upper (c : ascii) : ascii :=
  let n := nat_of_ascii c in
  if ((97 <=? n) && (n <=? 122))%nat then ascii_of_nat (n - 32) else c.

Definition lower_char (c : ascii) : ascii :=
  let n := nat_of_ascii c in
  if ((65 <=? n) && (n <=? 90))%nat then ascii_of_nat (n + 32) else c.

Fixpoint str_map (f : ascii -> ascii) (s : string) : string :=
  match s with
  | EmptyString => EmptyString
  | String c r => String (f c) (str_map f r)
  end.

(** [s.lower()], [s.capitalize()] *)
Definition lower (s : string) : string := str_map lower_char s.

Definition capitalize (s : string) : string :=
  match s with
  | EmptyString => EmptyString
  | String c r => String (upper c) (lower r)
  end.

(** [s[::-1]] *)
Fixpoint rev_onto (s acc : string) : string :=
  match s with
  | EmptyString => acc
  | String c r => rev_onto r (String c acc)
  end.

Definition reverse (s : string) : string := rev_onto s EmptyString.

(** [s.strip()] *)
Definition is_space (c : ascii) : bool :=
  let n := nat_of_ascii c in
  (((9 <=? n) && (n <=? 13)) || ((28 <=? n) && (n <=? 32)))%nat.

Fixpoint lstrip (s : string) : string :=
  match s with
  | EmptyString => EmptyString
  | String c r => if is_space c then lstrip r else s
  end.

Definition strip (s : string) : string :=
  reverse (lstrip (reverse (lstrip s))).

(** [s.split(sep)] for a one-character [sep] *)
Fixpoint split_char (sep : ascii) (s : string) : list string :=
  match s with
  | EmptyString => [EmptyString]
  | String c r =>
      if Ascii.eqb c sep then EmptyString :: split_char sep r
      else match split_char sep r with
           | [] => [String c EmptyString]
           | w :: ws => String c w :: ws
           end
  end.

(** [s.split(sep, 1)] for a non-empty [sep]: [None] when [sep] does not
    occur (the list of length 1), else the text before and after its
    first occurrence. *)
Fixpoint split_once (sep s : string) : option (string * string) :=
  if String.prefix sep s
  then Some (EmptyString, substring (String.length sep) (String.length s) s)
  else match s with
       | EmptyString => None
       | String c r =>
           match split_once sep r with
           | Some (v, rem) => Some (String c v, rem)
           | None => None
           end
       end.

(** [int(s)]: surrounding blanks, an optional sign, then decimal digits
    that single underscores may separate. *)
Definition digit_value (c : ascii) : option Z :=
  let n := nat_of_ascii c in
  if ((48 <=? n) && (n <=? 57))%nat then Some (Z.of_nat (n - 48)) else None.

Fixpoint digits_value (s : string) (after_digit : bool) (acc : Z) : option Z :=
  match s with
  | EmptyString => if after_digit then Some acc else None
  | String c r =>
      match digit_value c with
      | Some d => digits_value r true (10 * acc + d)
      | None =>
          if Ascii.eqb c "_" && after_digit then digits_value r false acc
          else None
      end
  end.

Definition int (s : string) : result Z :=
  let s := strip s in
  let parse body :=
    match digits_value body false 0 with
    | Some n => Ok n
    | None => Raise ValueError
    end in
  match s with
  | String "-" r => let* n := parse r in Ok (- n)
  | String "+" r => parse r
  | _ => parse s
  end.

(** [str(n)] for an integer, and [c * n] for a one-character string *)
Definition str (n : Z) : string := NilZero.string_of_int (Z.to_int n).

Fixpoint times (c : ascii) (n : nat) : string :=
  match n with
  | O => EmptyString
  | S n' => String c (times c n')
  end.

Definition slen (s : string) : Z := Z.of_nat (String.length s).

End PyStr.

(** ** Periodic sequences *)

Module LoopingList.

(** Modelled from the spec: the class [LoopingList] of
    [histropy.utils.looping_list] is not among the sources.  The spec
    gives it as a sequence wrapper whose [s[i]] is element [i mod n] of
    the pattern, negative indices wrapping the same way.  Nothing is
    said of the empty pattern; here the [mod] by its length raises. *)
Definition t (A : Type) : Type := list A.

Definition __getitem__ {A : Type} (s : t A) (i : Z) : result A :=
  match s with
  | [] => Raise ZeroDivisionError
  | x :: _ => Ok (nth (Z.to_nat (i mod len s)) s x)
  end.

End LoopingList.

(** ** Numeral systems *)

Module RadixBase.

Record t : Type := mk {
  left : LoopingList.t Z;
  right : LoopingList.t Z;
  name : string;
  integer_separators : LoopingList.t string
}.

#[global] Instance t_eq_dec : EqDecision t.
Proof. solve_decision. Defined.

Definition type_name (n : string) : string :=
  String.concat "" (map PyStr.capitalize (PyStr.split_char "_" n)).

(** The state [__init__] writes to: the class dictionary
    [RadixBase.name_to_base] and the attributes of the module, where the
    class minted for a base is stored under its camel-cased name.  A
    minted class is [BasedReal] with its [base] attribute bound, so it is
    represented by that base. *)
Record registry : Type := mk_registry {
  name_to_base : gmap string t;
  module_types : gmap string t
}.

Definition empty_registry : registry := mk_registry ∅ ∅.

(** [RadixBase.__init__] *)
Definition __init__ (left right : list Z) (name : string)
    (integer_separators : option (list string)) (st : registry)
    : result (t * registry) :=
  let seps :=
    match integer_separators with
    | Some l => l
    | None => map (fun x => if x =? 10 then ""%string else ","%string) left
    end in
  let self := mk left right name seps in
  let st1 := mk_registry (<[name := self]> (name_to_base st)) (module_types st) in
  let st2 := mk_registry (name_to_base st1)
               (<[type_name name := self]> (module_types st1)) in
  Ok (self, st2).

(** [RadixBase.__getitem__]: the radix at a position. *)
Definition __getitem__ (self : t) (pos : Z) : result Z :=
  if pos <=? 0 then LoopingList.__getitem__ (left self) (pos - 1)
  else LoopingList.__getitem__ (right self) (pos - 1).

(** The loops of [float_at_pos], over [i = 0, 1, ...]. *)
Fixpoint div_right (self : t) (n : nat) (i : Z) (factor : float) : result float :=
  match n with
  | O => Ok factor
  | S n' =>
      let* r := LoopingList.__getitem__ (right self) i in
      let* factor := fdiv_int factor r in
      div_right self n' (i + 1) factor
  end.

Fixpoint mul_left (self : t) (n : nat) (i : Z) (factor : float) : result float :=
  match n with
  | O => Ok factor
  | S n' =>
      let* r := LoopingList.__getitem__ (left self) i in
      let* factor := fmul_int factor r in
      mul_left self n' (i + 1) factor
  end.

Definition float_at_pos (self : t) (pos : Z) : result float :=
  let factor := 1%float in
  if pos >? 0 then div_right self (Z.to_nat pos) 0 factor
  else if pos =? 0 then Ok factor
  else mul_left self (Z.to_nat (- pos)) 0 factor.

(** What [mul_factor] returns: an integer when the division is exact, a
    float otherwise. *)
Inductive scalar : Type :=
  | IntVal (n : Z)
  | FloatVal (x : float).

(** [for k in range(first, first + n): acc *= self[k]] *)
Fixpoint product (self : t) (n : nat) (k : Z) (acc : Z) : result Z :=
  match n with
  | O => Ok acc
  | S n' =>
      let* r := __getitem__ self k in
      product self n' (k + 1) (acc * r)
  end.

Definition mul_factor (self : t) (i j : Z) : result scalar :=
  let* numerator := product self (Z.to_nat (i + j)) 1 1 in
  let* denom_i := product self (Z.to_nat i) 1 1 in
  let* denom_j := product self (Z.to_nat j) 1 1 in
  let* m := py_mod numerator (denom_i * denom_j) in
  if m =? 0 then
    let* q := py_floordiv numerator (denom_i * denom_j) in
    Ok (IntVal q)
  else
    let* x := int_truediv numerator (denom_i * denom_j) in
    Ok (FloatVal x).

(** The bases the module registers when it is imported, in order. *)
Definition decimal := mk [10] [10] "decimal" [""%string].
Definition sexagesimal := mk [60] [60] "sexagesimal" [","%string].
Definition floating_sexagesimal := mk [60] [60] "floating_sexagesimal" [","%string].
Definition historical :=
  mk [10; 12; 30] [60] "historical" [""%string; "r "%string; "s "%string].
Definition historical_decimal := mk [10] [100] "historical_decimal" [""%string].
Definition integer_and_sexagesimal :=
  mk [10] [60] "integer_and_sexagesimal" [""%string].
Definition temporal := mk [10] [24; 60] "temporal" [""%string].

Definition register (left right : list Z) (name : string)
    (seps : option (list string)) (st : result registry) : result registry :=
  let* st := st in
  let* r := __init__ left right name seps st in
  Ok (snd r).

Definition startup : result registry :=
  register [10] [24; 60] "temporal" None
 (register [10] [60] "integer and sexagesimal" None
 (register [10] [60] "integer_and_sexagesimal" None
 (register [10] [100] "historical_decimal" None
 (register [10; 12; 30] [60] "historical"
    (Some [""%string; "r "%string; "s "%string])
 (register [60] [60] "floating_sexagesimal" None
 (register [60] [60] "sexagesimal" None
 (register [10] [10] "decimal" None (Ok empty_registry)))))))).

End RadixBase.

(** ** Trimming zeros *)

(** The first loop of [trim_zeros]: it walks the tuple it was given and
    drops the head of [left] for every zero it meets before the first
    non-zero element. *)
Fixpoint trim_head (walk left : list Z) : list Z :=
  match walk with
  | 0 :: walk' => trim_head walk' (tl left)
  | _ => left
  end.

(** The second loop: it walks the reverse of the tuple it was given, drops
    the last element of [right] and lowers [offset] for every zero it
    meets before the first non-zero element. *)
Fixpoint trim_tail (walk right : list Z) (offset : Z) : list Z * Z :=
  match walk with
  | 0 :: walk' => trim_tail walk' (removelast right) (offset - 1)
  | _ => (right, offset)
  end.

Definition trim_zeros (left right : list Z) : list Z * list Z * Z :=
  let left := trim_head left left in
  let ro := trim_tail (rev right) right 0 in
  (left, fst ro, snd ro).

(** ** Values *)

Module BasedReal.

(** An instance of the class minted for [base]: the slots [__left],
    [__right], [__remainder], [__sign] and the class attribute [base].
    Digits are integers, so the [IllegalFloatValueError] test of
    [__check_range] has nothing to reject. *)
Record t : Type := mk {
  base : RadixBase.t;
  left : list Z;
  right : list Z;
  remainder : float;
  sign : Z
}.

(** An operand of an operator: a value of some minted class, or a plain
    Python number. *)
Inductive number : Type :=
  | Based (v : t)
  | Float (x : float).

(** [isinstance(self, type(other)) and isinstance(other, type(self))]:
    the minted classes all derive directly from [BasedReal], one per
    base, so the two values are of one class exactly when they are bound
    to one base. *)
Definition same_type (self other : t) : bool :=
  bool_decide (base self = base other).

Definition significant (self : t) : Z := len (right self).

(** [self[:]] and [self[::-1]] *)
Definition digits (self : t) : list Z := left self ++ right self.
Definition rev_digits (self : t) : list Z := rev (digits self).

(** [self[key]] for an integer [key] *)
Definition __getitem__ (self : t) (key : Z) : result Z :=
  if (- len (left self) <? key) && (key <=? 0)
  then get_at (left self) (Z.to_nat (len (left self) + (key - 1)))
  else if (key <=? len (right self)) && (key >? 0)
  then get_at (right self) (Z.to_nat (key - 1))
  else Raise IndexError.

(** One [for i, s in enumerate(...)] loop of [__check_range]; [pos i] is
    the position whose radix bounds the [i]-th element.  The radix is read
    whatever [s] is: the test reads it when [s] is not negative, and the
    arguments of the exception read it when [s] is. *)
Fixpoint check_loop (b : RadixBase.t) (pos : Z -> Z) (i : Z) (l : list Z)
    : result unit :=
  match l with
  | [] => Ok tt
  | s :: l' =>
      let* radix := RadixBase.__getitem__ b (pos i) in
      if (s <? 0) || (s >? radix) then Raise IllegalBaseValueError
      else check_loop b pos (i + 1) l'
  end.

(** [__check_range].  Both loops run over [self.left]: the first over its
    reverse against the integer positions [-i], the second over it as it
    stands against the fractional positions [i + 1]. *)
Definition __check_range (b : RadixBase.t) (left right : list Z) (sign : Z)
    : result unit :=
  if negb ((sign =? -1) || (sign =? 1)) then Raise ValueError
  else
    let* _ := check_loop b (fun i => - i) 0 (rev left) in
    check_loop b (fun i => i + 1) 0 left.

(** [__simplify_integer_part]: the tuple without its leading zeros; the
    source stores it in place and reports whether it is shorter. *)
Fixpoint __simplify_integer_part (left : list Z) : list Z :=
  match left with
  | 0 :: l' => __simplify_integer_part l'
  | _ => left
  end.

(** The body of [__new__] once [__left] and [__right] hold two tuples
    ([cls] is always a minted class, never [BasedReal] itself).  When
    leading zeros were trimmed the source calls [__new__] again on the
    trimmed tuples; that call checks the range again, finds nothing to
    trim, and returns.  The [@cached] wrapper only saves work: values are
    never updated in place. *)
Definition finish (b : RadixBase.t) (left right : list Z) (remainder : float)
    (sign : Z) : t :=
  mk b (match left with [] => [0] | _ => left end) right remainder sign.

Definition new (b : RadixBase.t) (left right : list Z) (remainder : float)
    (sign : Z) : result t :=
  let* _ := __check_range b left right sign in
  let left' := __simplify_integer_part left in
  if negb (len left' =? len left) then
    let* _ := __check_range b left' right sign in
    Ok (finish b left' right remainder sign)
  else Ok (finish b left right remainder sign).

(** [__float__] *)
Fixpoint float_left (b : RadixBase.t) (i : Z) (rl : list Z)
    (value factor : float) : result float :=
  match rl with
  | [] => Ok value
  | d :: rl' =>
      let* x := fmul_int factor d in
      let value := (value + x)%float in
      let* r := LoopingList.__getitem__ (RadixBase.left b) i in
      let* factor := fmul_int factor r in
      float_left b (i + 1) rl' value factor
  end.

Fixpoint float_right (b : RadixBase.t) (i : Z) (l : list Z)
    (value factor : float) : result (float * float) :=
  match l with
  | [] => Ok (value, factor)
  | d :: l' =>
      let* r := LoopingList.__getitem__ (RadixBase.right b) i in
      let* factor := fdiv_int factor r in
      let* x := fmul_int factor d in
      float_right b (i + 1) l' (value + x)%float factor
  end.

Definition __float__ (self : t) : result float :=
  let* value := float_left (base self) 0 (rev (left self)) 0%float 1%float in
  let* vf := float_right (base self) 0 (right self) value 1%float in
  let value := (fst vf + snd vf * remainder self)%float in
  fmul_int value (sign self).

Definition float_of_number (x : number) : result float :=
  match x with
  | Based v => __float__ v
  | Float f => Ok f
  end.

(** *** [from_float] *)

(** [while floa >= max_integer]: returns [(max_integer, pos)].  The
    budget is beyond what radices of at least 2 can use on a finite
    float; running out of it stands for a loop that does not stop. *)
Fixpoint grow (fuel : nat) (b : RadixBase.t) (floa : float)
    (max_integer pos : Z) : result (Z * Z) :=
  if float_ge_int floa max_integer then
    match fuel with
    | O => Raise Diverges
    | S fuel' =>
        let* r := LoopingList.__getitem__ (RadixBase.left b) pos in
        grow fuel' b floa (max_integer * r) (pos + 1)
    end
  else Ok (max_integer, pos).

Definition grow_budget (b : RadixBase.t) : nat :=
  (2200 * S (List.length (RadixBase.left b)))%nat.

(** [for i in range(pos)]: the integer digits, first one first. *)
Fixpoint integer_positions (n : nat) (b : RadixBase.t) (i : Z)
    (floa : float) (int_factor : Z) : result (list Z * float) :=
  match n with
  | O => Ok ([], floa)
  | S n' =>
      let* r := LoopingList.__getitem__ (RadixBase.left b) i in
      let* int_factor := py_floordiv int_factor r in
      let* q := fdiv_int floa int_factor in
      let* position_value := int_of_float q in
      let* floa := fsub_int floa (position_value * int_factor) in
      let* rest := integer_positions n' b (i + 1) floa int_factor in
      Ok (position_value :: fst rest, snd rest)
  end.

(** [for i in range(significant)]: the fractional digits. *)
Fixpoint fractional_positions (n : nat) (b : RadixBase.t) (i : Z)
    (floa factor : float) : result (list Z * (float * float)) :=
  match n with
  | O => Ok ([], (floa, factor))
  | S n' =>
      let* r := LoopingList.__getitem__ (RadixBase.right b) i in
      let* factor := fdiv_int factor r in
      let* q := py_fdiv floa factor in
      let* position_value := int_of_float q in
      let* pv := float_of_int position_value in
      let floa := (floa - pv * factor)%float in
      let* rest := fractional_positions n' b (i + 1) floa factor in
      Ok (position_value :: fst rest, snd rest)
  end.

Definition from_float (cls : RadixBase.t) (floa : float) (significant : Z)
    : result t :=
  let* sg := np_sign floa in
  let sign := if sg =? 0 then 1 else sg in
  let* floa := fmul_int floa sign in
  let* mp := grow (grow_budget cls) cls floa 1 0 in
  let max_integer := fst mp in
  let pos := snd mp in
  let* lf := integer_positions (Z.to_nat pos) cls 0 floa max_integer in
  let* rf := fractional_positions (Z.to_nat significant) cls 0 (snd lf) 1%float in
  let* remainder := py_fdiv (fst (snd rf)) (snd (snd rf)) in
  new cls (fst lf) (fst rf) remainder sign.

(** [zero] and [one] hand the integers 0 and 1 to [from_float], which
    treats them as the floats of the same value. *)
Definition zero (cls : RadixBase.t) (significant : Z) : result t :=
  from_float cls 0%float significant.

Definition one (cls : RadixBase.t) (significant : Z) : result t :=
  from_float cls 1%float significant.

(** [to_base] *)
Definition to_base (self : t) (b : RadixBase.t) (significant : Z) : result t :=
  let* x := __float__ self in
  from_float b x significant.

(** *** Precision *)

Definition resize (self : t) (significant : Z) : result t :=
  if significant =? len (right self) then Ok self
  else
    let* factor := RadixBase.float_at_pos (base self) (len (right self)) in
    let remainderValue := (factor * remainder self)%float in
    if significant >? len (right self) then
      let* s := float_of_int (sign self) in
      let* rem := from_float (base self) (s * remainderValue)%float significant in
      new (base self) (left self)
        (right self ++ slice (right rem) (Some (len (right self))) None)
        (remainder rem) (sign self)
    else if significant >=? 0 then
      let* rem := new (base self) [] (slice (right self) (Some significant) None)
                    (remainder self) 1 in
      let* r := __float__ rem in
      new (base self) (left self) (slice (right self) None (Some significant))
        r (sign self)
    else Raise NotImplementedError.

Definition truncate (self : t) (n : Z) : result t :=
  if n >? len (right self) then Ok self
  else new (base self) (left self) (slice (right self) None (Some n))
         0%float (sign self).

Definition shift (self : t) (i : Z) : result t :=
  if i =? 0 then Ok self
  else
    let left_right := repeat_tuple 0 i ++ digits self ++ repeat_tuple 0 (- i) in
    let offset := if i >? 0 then len (left self) else len (left self) - i in
    let left := slice left_right None (Some offset) in
    let right := slice left_right (Some offset)
                   (if - i >? offset then Some (- i) else None) in
    new (base self) left right (remainder self) (sign self).

(** *** Sign and order *)

Definition __neg__ (self : t) : result t :=
  new (base self) (left self) (right self) (remainder self) (- sign self).

Definition __abs__ (self : t) : result t :=
  if sign self >=? 0 then Ok self else __neg__ self.

Definition __gt__ (self : t) (other : number) : result bool :=
  let* x := __float__ self in
  let* y := float_of_number other in
  Ok (fgt x y).

Definition __eq__ (self : t) (other : number) : result bool :=
  match other with
  | Based o =>
      if negb (same_type self o) || negb (len (right self) =? len (right o)) then
        let* x := __float__ self in
        let* y := __float__ o in
        Ok (x =? y)%float
      else
        Ok ((sign self =? sign o)
            && bool_decide (right self = right o)
            && bool_decide (left self = left o)
            && (remainder self =? remainder o)%float)
  | Float f =>
      let* x := __float__ self in
      Ok (x =? f)%float
  end.

(** *** Addition *)

(** The loop of the inner function [add] of [__add__]: [to_add] is
    consumed from index [i] on, [array] is the list it updates. *)
Fixpoint add_loop (b : RadixBase.t) (maxright : Z) (to_add : list Z)
    (i : nat) (array : list Z) : result (list Z) :=
  match to_add with
  | [] => Ok array
  | r :: to_add' =>
      let* array := add_at array i r in
      let* factor := RadixBase.__getitem__ b (maxright - Z.of_nat i) in
      let* n := get_at array i in
      let* array :=
        if (n <? 0) || (n >=? factor) then
          let* m := py_mod n factor in
          let* array := set_at array i m in
          add_at array (S i) (if n >? 0 then 1 else -1)
        else Ok array in
      add_loop b maxright to_add' (S i) array
  end.

Definition add (b : RadixBase.t) (maxright : Z) (len_numbers : Z)
    (array : list Z) (values : t) : result (list Z) :=
  let to_add := map (fun x => sign values * x) (rev_digits values)
                ++ repeat_tuple 0 (len_numbers - len (digits values) - 1) in
  add_loop b maxright to_add 0 array.

(** [__add__] past its first test: both operands are of one class. *)
Definition add_same_type (self other : t) : result t :=
  let maxright := Z.max (len (right self)) (len (right other)) in
  let maxleft := Z.max (len (left self)) (len (left other)) in
  let* va := resize self maxright in
  let* vb := resize other maxright in
  let* abs_a := __abs__ va in
  let* abs_b := __abs__ vb in
  let* gt := __gt__ abs_a (Based abs_b) in
  let sign := if gt then BasedReal.sign va else BasedReal.sign vb in
  let* va := if sign <? 0 then __neg__ va else Ok va in
  let* vb := if sign <? 0 then __neg__ vb else Ok vb in
  let* ra := fmul_int (remainder va) (BasedReal.sign va) in
  let* rb := fmul_int (remainder vb) (BasedReal.sign vb) in
  let remainder := (ra + rb)%float in
  let* carry := int_of_float remainder in
  let numbers := [carry]
                 ++ repeat_tuple 0 (Z.max (len (digits va)) (len (digits vb))) in
  let* remainder := fsub_int remainder carry in
  let* numbers := add (base self) maxright (len numbers) numbers va in
  let* numbers := add (base self) maxright (len numbers) numbers vb in
  let numbers := map Z.abs (rev numbers) in
  let left := slice numbers None (Some (maxleft + 1)) in
  let right := slice numbers (Some (maxleft + 1)) None in
  new (base self) left right remainder sign.

(** [__add__]: an operand of another class, or a plain number, is first
    read as a float and rebuilt in the class of [self]. *)
Definition __add__ (self : t) (other : number) : result t :=
  match other with
  | Based o =>
      if same_type self o then add_same_type self o
      else
        let* x := __float__ o in
        let* c := from_float (base self) x (len (right self)) in
        add_same_type self c
  | Float x =>
      let* c := from_float (base self) x (len (right self)) in
      add_same_type self c
  end.

Definition __sub__ (self other : t) : result t :=
  let* o := __neg__ other in
  __add__ self (Based o).

(** *** Rounding *)

Definition __round__ (self : t) (significant : option Z) : result t :=
  let significant :=
    match significant with
    | Some s => s
    | None => len (right self)
    end in
  let* n := resize self significant in
  let* n :=
    if fge (remainder n) 0.5%float then
      let* unit := new (base self) [1] [] 0%float (sign self) in
      let* unit := shift unit significant in
      __add__ n (Based unit)
    else Ok n in
  truncate n significant.

(** *** Division *)

(** [division].  After the class test the source copies both operands and
    assigns to [num_nv.sign]; [sign] is a property with no setter, so the
    assignment raises.  The loop that follows, and [euclidian_div] in it
    (whose body is [raise NotImplementedError()]), are never reached. *)
Definition euclidian_div (self other : t) : result (t * t) :=
  Raise NotImplementedError.

Definition set_sign (self : t) (s : Z) : result t :=
  Raise AttributeError.

Definition division (self other : t) (significant : Z) : result t :=
  if negb (same_type self other) then Raise TypeMismatch
  else
    let final_sign := sign self * sign other in
    let* num_nv := set_sign self 1 in
    let* denom_nv := set_sign other 1 in
    let* q_res := zero (base self) significant in
    let* qr := euclidian_div num_nv denom_nv in
    Raise NotImplementedError.

Definition __truediv__ (self other : t) : result t :=
  division self other (Z.max (len (right self)) (len (right other)) + 5).

(** *** Multiplication *)

(** [for i, r in enumerate(n)] of [__mul__], on one row [n] of the
    products. *)
Fixpoint mul_row (b : RadixBase.t) (max_right : Z) (row : list Z)
    (i : nat) (count : list Z) : result (list Z) :=
  match row with
  | [] => Ok count
  | r :: row' =>
      let* count := add_at count i r in
      let* factor := RadixBase.__getitem__ b (max_right - Z.of_nat i) in
      let* n := get_at count i in
      let* count :=
        if (n <? 0) || (n >=? factor) then
          let* m := py_mod n factor in
          let* q := py_floordiv n factor in
          let* count := set_at count i m in
          add_at count (S i) q
        else Ok count in
      mul_row b max_right row' (S i) count
  end.

Fixpoint mul_rows (b : RadixBase.t) (max_right : Z) (numbers : list (list Z))
    (count : list Z) : result (list Z) :=
  match numbers with
  | [] => Ok count
  | n :: numbers' =>
      let* count := mul_row b max_right n 0 count in
      mul_rows b max_right numbers' count
  end.

(** [while count[-1] != 0].  A positive last element shrinks by at least
    a half under a radix of at least 2; running out of the budget stands
    for a loop that does not stop. *)
Fixpoint flush (fuel : nat) (b : RadixBase.t) (max_right : Z)
    (count : list Z) : result (list Z) :=
  let n := last count 0 in
  if n =? 0 then Ok count
  else
    match fuel with
    | O => Raise Diverges
    | S fuel' =>
        let* factor := RadixBase.__getitem__ b (max_right - len count) in
        let* m := py_mod n factor in
        let* q := py_floordiv n factor in
        flush fuel' b max_right (removelast count ++ [m] ++ [q])
    end.

Definition flush_budget (count : list Z) : nat :=
  Z.to_nat (2 * Z.log2 (Z.abs (last count 0)) + 4).

(** [[0] * i + [fv * s for s in vb[:]][::-1]] for each [i, fv]. *)
Fixpoint product_rows (i : nat) (rva : list Z) (vb : list Z) : list (list Z) :=
  match rva with
  | [] => []
  | fv :: rva' =>
      (repeat 0 i ++ rev (map (fun s => fv * s) vb))
        :: product_rows (S i) rva' vb
  end.

Definition max_len (numbers : list (list Z)) : result Z :=
  match numbers with
  | [] => Raise ValueError
  | _ => Ok (fold_right Z.max 0 (map len numbers))
  end.

(** [__mul__] past its first test: both operands are of one class. *)
Definition mul_same_type (self other : t) : result t :=
  let sign := BasedReal.sign self * BasedReal.sign other in
  let max_right := Z.max (significant self) (significant other) in
  let* va := resize self max_right in
  let* vb := resize other max_right in
  let numbers := product_rows 0 (rev_digits va) (digits vb) in
  let* width := max_len numbers in
  let count := repeat_tuple 0 width ++ [0] in
  let* count := mul_rows (base self) max_right numbers count in
  let* count := flush (flush_budget count) (base self) max_right count in
  let* res := new (base self) (rev count) [] 0%float 1 in
  let* res := shift res (2 * max_right) in
  let* w := RadixBase.float_at_pos (base self) max_right in
  let vb_rem := (w * remainder vb)%float in
  let va_rem := (w * remainder va)%float in
  let* fa := __float__ va in
  let* fb := __float__ vb in
  let* res := __add__ res (Float (fa * vb_rem + fb * va_rem + va_rem * vb_rem)%float) in
  if sign <? 0 then __neg__ res else Ok res.

(** [self.from_float(other, self.significant)] as [__mul__] calls it on
    an operand of another class.  The operand is not a float, and every
    operation [from_float] makes on it is an operator of [BasedReal]:
    [np.sign] compares it with 0, by [<] first and then by [>], which go
    through [float]; [floa *= sign] is its product with the integer
    [sign], which [__mul__] rebuilds in the class of the operand;
    [floa >= max_integer] compares through [float] again; and the first
    division, [floa / ...], is [__truediv__] with a plain number as
    [other], where reading [other.right] fails.  So nothing is returned,
    and the exception is that of the first step that fails. *)
Definition ge_int (self : t) (n : Z) : result bool :=
  let* x := __float__ self in
  let* m := float_of_int n in
  Ok ((x =? m)%float || fgt x m).

Fixpoint grow_object (fuel : nat) (b : RadixBase.t) (floa : t)
    (max_integer pos : Z) : result (Z * Z) :=
  let* ge := ge_int floa max_integer in
  if ge then
    match fuel with
    | O => Raise Diverges
    | S fuel' =>
        let* r := LoopingList.__getitem__ (RadixBase.left b) pos in
        grow_object fuel' b floa (max_integer * r) (pos + 1)
    end
  else Ok (max_integer, pos).

Definition from_float_object (cls : RadixBase.t) (floa : t) (significant : Z)
    : result t :=
  let* x := __float__ floa in
  let sign := if (x =? 0)%float || fgt x 0%float then 1%float else (-1)%float in
  let* s := from_float (base floa) sign (BasedReal.significant floa) in
  let* floa := mul_same_type floa s in
  let* mp := grow_object (grow_budget cls) cls floa 1 0 in
  if snd mp >? 0 then
    let* r := LoopingList.__getitem__ (RadixBase.left cls) 0 in
    let* _ := py_floordiv (fst mp) r in
    Raise AttributeError
  else if significant >? 0 then
    let* r := LoopingList.__getitem__ (RadixBase.right cls) 0 in
    let* _ := fdiv_int 1%float r in
    Raise AttributeError
  else Raise AttributeError.

(** [__mul__].  An operand that is not of the class of [self] is handed
    to [from_float] as it is: a plain number is rebuilt in the class of
    [self], a value of another class goes the way described above. *)
Definition __mul__ (self : t) (other : number) : result t :=
  match other with
  | Based o =>
      if same_type self o then mul_same_type self o
      else
        let* c := from_float_object (base self) o (significant self) in
        mul_same_type self c
  | Float x =>
      let* c := from_float (base self) x (significant self) in
      mul_same_type self c
  end.

(** *** Reading and writing *)

Section Strings.

(** The float Python's [float(string)] reads from a decimal literal;
    only the [decimal] base goes through it. *)
Variable float_of_string : string -> result float.

(** The loop over the reversed integer part.  It returns the text left
    to read and the digits read so far, as they stand when the loop is
    left, by [break] or at the end of the range. *)
Fixpoint integer_loop (n : nat) (b : RadixBase.t) (i : Z) (rleft : string)
    (left_numbers : list Z) : result (string * list Z) :=
  match n with
  | O => Ok (rleft, left_numbers)
  | S n' =>
      let* sep := LoopingList.__getitem__ (RadixBase.integer_separators b)
                    (- i - 1) in
      let separator := PyStr.lower (PyStr.strip sep) in
      let* split :=
        if negb (separator =? "")%string then
          match PyStr.split_once separator rleft with
          | None => Ok None
          | Some vr => Ok (Some vr)
          end
        else
          match rleft with
          | EmptyString => Raise IndexError
          | String c r => Ok (Some (String c EmptyString, r))
          end in
      match split with
      | None => Ok (rleft, left_numbers)
      | Some (value, rem) =>
          let* d := PyStr.int (PyStr.reverse value) in
          let left_numbers := insert0 d left_numbers in
          let rleft := PyStr.strip rem in
          if PyStr.slen rleft =? 1 then Ok (rleft, left_numbers)
          else integer_loop n' b (i + 1) rleft left_numbers
      end
  end.

Fixpoint ints (l : list string) : result (list Z) :=
  match l with
  | [] => Ok []
  | s :: l' =>
      let* d := PyStr.int s in
      let* ds := ints l' in
      Ok (d :: ds)
  end.

Definition from_string (cls : RadixBase.t) (string : string) : result t :=
  if (RadixBase.name cls =? "decimal")%string then
    let* x := float_of_string string in
    from_float cls x (PyStr.slen string)
  else
    let string := PyStr.lower (PyStr.strip string) in
    if PyStr.slen string =? 0 then Raise EmptyStringException
    else
      let '(sign, string) :=
        match string with
        | String "-" r => (-1, r)
        | _ => (1, string)
        end in
      let* lr :=
        match PyStr.split_char ";" string with
        | [l] => Ok (l, ""%string)
        | [l; r] => Ok (l, r)
        | _ => Raise TooManySeparators
        end in
      let left := PyStr.strip (fst lr) in
      let right := PyStr.strip (snd lr) in
      let* right_numbers :=
        if PyStr.slen right >? 0 then ints (PyStr.split_char "," right)
        else Ok [] in
      let* left_numbers :=
        if PyStr.slen left >? 0 then
          let* rl := integer_loop (String.length left) cls 0
                       (PyStr.reverse left) [] in
          let* d := PyStr.int (PyStr.reverse (fst rl)) in
          Ok (insert0 d (snd rl))
        else Ok [] in
      new cls left_numbers right_numbers 0%float sign.

(** The shapes of the positional arguments [__new__] tells apart. *)
Inductive args : Type :=
  | Ints (digits : list Z)
  | Tuples (left right : list Z)
  | Iterables (left right : list Z)
  | Convert (v : t) (significant : Z)
  | Scalar (x : float) (significant : Z)
  | Str (s : string)
  | Lone (x : float).

(** [__new__] *)
Definition __new__ (cls : RadixBase.t) (a : args) (remainder : float)
    (sign : Z) : result t :=
  match a with
  | Ints digits => new cls digits [] remainder sign
  | Tuples left right => new cls left right remainder sign
  | Iterables left right => new cls left right remainder sign
  | Convert v significant => to_base v cls significant
  | Scalar x significant => from_float cls x significant
  | Str s => from_string cls s
  | Lone _ => Raise ValueError
  end.

End Strings.

(** [ndigit_for_radix]: [int(np.ceil(np.log10(radix)))], the ceiling of
    the base-ten logarithm.  It is taken on integers here and is exact;
    the source takes the logarithm in binary64, which gives the same
    ceiling unless the logarithm of a radix above a power of ten rounds
    down to a whole number, and that needs a radix beyond 10^15.
    [np.log10] is minus infinity at 0 and a NaN below, which [int]
    refuses. *)
Fixpoint ceil_log10 (fuel : nat) (radix power k : Z) : Z :=
  if radix <=? power then k
  else match fuel with
       | O => k
       | S fuel' => ceil_log10 fuel' radix (10 * power) (k + 1)
       end.

Definition ndigit_for_radix (radix : Z) : result Z :=
  if radix <? 0 then Raise ValueError
  else if radix =? 0 then Raise OverflowError
  else Ok (ceil_log10 (Z.to_nat (Z.log2 radix + 1)) radix 1 0).

(** ["0" * (digit - len(num)) + num] *)
Definition padded (radix d : Z) : result string :=
  let num := PyStr.str d in
  let* digit := ndigit_for_radix radix in
  Ok (PyStr.times "0" (Z.to_nat (digit - PyStr.slen num)) ++ num)%string.

Fixpoint repr_left (b : RadixBase.t) (i : Z) (l : list Z) (res : string)
    : result string :=
  match l with
  | [] => Ok res
  | d :: l' =>
      let* res :=
        if i >? 0 then
          let* sep := LoopingList.__getitem__ (RadixBase.integer_separators b) i in
          Ok (res ++ sep)%string
        else Ok res in
      let* radix := LoopingList.__getitem__ (RadixBase.left b) i in
      let* num := padded radix d in
      repr_left b (i + 1) l' (res ++ num)%string
  end.

Fixpoint repr_right (b : RadixBase.t) (i : Z) (l : list Z) (res : string)
    : result string :=
  match l with
  | [] => Ok res
  | d :: l' =>
      let* radix := LoopingList.__getitem__ (RadixBase.right b) i in
      let* num := padded radix d in
      let res := (res ++ num)%string in
      let res := match l' with [] => res | _ => (res ++ ",")%string end in
      repr_right b (i + 1) l' res
  end.

Definition __repr__ (self : t) : result string :=
  let* nv := __round__ self None in
  if (RadixBase.name (base nv) =? "decimal")%string then
    Ok (String.concat "" (map PyStr.str (left nv)) ++ "."
        ++ String.concat "" (map PyStr.str (right nv)))%string
  else
    let res := if sign nv <? 0 then "-"%string else ""%string in
    let* res := repr_left (base nv) 0 (left nv) res in
    let res := (res ++ " ; ")%string in
    repr_right (base nv) 0 (right nv) res.


(** *** Slices, fractions, integral parts, powers and order *)

(** [self[start:stop]]: the bounds are positions, moved by
    [len(self.left) - 1] into offsets of [self.left + self.right]. *)
Definition getitem_slice (self : t) (start stop : option Z) : list Z :=
  let array := left self ++ right self in
  let move := option_map (fun p => p + len (left self) - 1) in
  slice array (move start) (move stop).

(** [from_fraction].  The fraction is given by its numerator and its
    denominator (a [Fraction] keeps the latter positive);
    [float(fraction)] is their true division.  A missing significance,
    like the significance 0, stands for 100 positions, of which the
    trailing zeros are then dropped. *)
Definition from_fraction (cls : RadixBase.t) (numerator denominator : Z)
    (remainder : float) (significant : option Z) : result t :=
  let given :=
    match significant with
    | Some s => negb (s =? 0)
    | None => false
    end in
  let* x := int_truediv numerator denominator in
  let* res := from_float cls x
                (match significant with
                 | Some s => if s =? 0 then 100 else s
                 | None => 100
                 end) in
  new cls (left res)
    (if given then right res else snd (fst (trim_zeros (left res) (right res))))
    remainder (sign res).

(** [__fractionnal_position_base_to_base]: the digits of
    [value / (base1.right[0] * ... * base1.right[pos])] at the fractional
    positions of [base2], by exact integer arithmetic. *)
Fixpoint denominator_loop (base1 : RadixBase.t) (n : nat) (i : Z) (denom : Z)
    : result Z :=
  match n with
  | O => Ok denom
  | S n' =>
      let* r := LoopingList.__getitem__ (RadixBase.right base1) i in
      denominator_loop base1 n' (i + 1) (denom * r)
  end.

(** [for i in range(significant)]: returns the digits and the last [rem]. *)
Fixpoint conversion_loop (base2 : RadixBase.t) (n : nat) (i : Z)
    (num denom rem : Z) : result (list Z * Z) :=
  match n with
  | O => Ok ([], rem)
  | S n' =>
      let* r := LoopingList.__getitem__ (RadixBase.right base2) i in
      let num := num * r in
      let* quo := py_floordiv num denom in
      let* rem := py_mod num denom in
      let* rest := conversion_loop base2 n' (i + 1) rem denom rem in
      Ok (quo :: fst rest, snd rest)
  end.

Definition __fractionnal_position_base_to_base (value pos : Z)
    (base1 base2 : RadixBase.t) (significant : Z) : result t :=
  let* denom := denominator_loop base1 (Z.to_nat (pos + 1)) 0 1 in
  let* dr := conversion_loop base2 (Z.to_nat significant) 0 value denom 0 in
  let* gros_rem := py_floordiv (1000000000 * snd dr) denom in
  let* remainder := int_truediv gros_rem 1000000000 in
  new base2 [0] (fst dr) remainder 1.

(** [__trunc__], [__floor__], [__ceil__].  In the last two the conditional
    expression takes in the whole sum: [(trunc + 1) if ... else 0]. *)
Definition __trunc__ (self : t) : result Z :=
  let* x := __float__ self in
  int_of_float x.

Definition __floor__ (self : t) : result Z :=
  if sign self <? 0 then let* n := __trunc__ self in Ok (n + 1) else Ok 0.

Definition __ceil__ (self : t) : result Z :=
  if sign self >? 0 then let* n := __trunc__ self in Ok (n + 1) else Ok 0.

(** [__pow__].  Only the exponent 0 has a [return]: a positive exponent
    multiplies and then falls off the end of the function, which returns
    [None]; a negative one starts with [1 / self], which ends in
    [__rtruediv__] and its [NotImplementedError]. *)
Fixpoint pow_loop (n : nat) (self res : t) : result t :=
  match n with
  | O => Ok res
  | S n' =>
      let* res := __mul__ res (Based self) in
      pow_loop n' self res
  end.

Definition __pow__ (self : t) (exponent : Z) : result (option t) :=
  if exponent =? 0 then
    let* r := one (base self) 0 in Ok (Some r)
  else if exponent >? 0 then
    let* _ := pow_loop (Z.to_nat (exponent - 1)) self self in Ok None
  else Raise NotImplementedError.

(** [__ne__], [__ge__], [__lt__], [__le__] *)
Definition __ne__ (self : t) (other : number) : result bool :=
  let* e := __eq__ self other in Ok (negb e).

Definition __ge__ (self : t) (other : number) : result bool :=
  let* e := __eq__ self other in
  if e then Ok true else __gt__ self other.

Definition __lt__ (self : t) (other : number) : result bool :=
  let* g := __ge__ self other in Ok (negb g).

Definition __le__ (self : t) (other : number) : result bool :=
  let* g := __gt__ self other in Ok (negb g).

End BasedReal.


(** * Values and predicates of the statements *)

Import BasedReal.

(** A value as the constructor leaves it: building it again from its own
    fields gives it back. *)
Definition valid (v : t) : Prop :=
  new (base v) (left v) (right v) (remainder v) (sign v) = Ok v.

(** A digit that the range check accepts at every position of a base. *)
Definition fits (b : RadixBase.t) (d : Z) : Prop :=
  forall pos, exists radix, RadixBase.__getitem__ b pos = Ok radix /\ 0 <= d <= radix.

(** The values the statements are evaluated at. *)
Definition half_remainder : t := mk RadixBase.sexagesimal [1] [] 0.5%float 1.
Definition one_two_three : t :=
  mk RadixBase.sexagesimal [1; 2; 3] [4; 5; 6] 0.25%float (-1).
Definition twenty_nine : t := mk RadixBase.historical [29] [] 0%float 1.
Definition one_sexagesimal : t := mk RadixBase.sexagesimal [1] [] 0%float 1.
Definition one_decimal : t := mk RadixBase.decimal [1] [] 0%float 1.
Definition minus_one_sexagesimal : t := mk RadixBase.sexagesimal [1] [] 0%float (-1).
Definition late_hour : t := mk RadixBase.temporal [0] [23; 30] 0%float 1.
Definition twenty_minutes : t := mk RadixBase.temporal [0] [0; 20] 0%float 1.

(** The integer digits the constructor settles on: the given ones without
    their leading zeros, or the single digit 0 when nothing is left. *)
Definition canon (l : list Z) : list Z :=
  match __simplify_integer_part l with
  | [] => [0]
  | l' => l'
  end.

(** Integer digits in that form: the single digit 0, or digits that start
    with a non-zero one. *)
Definition normal (l : list Z) : Prop := l = [0] \/ hd 0 l <> 0.

(** The number of occurrences of a character in a string. *)
Fixpoint count_char (c : ascii) (s : string) : nat :=
  match s with
  | EmptyString => 0%nat
  | String x r => ((if Ascii.eqb x c then 1 else 0) + count_char c r)%nat
  end.

(** The element a non-empty periodic sequence holds at an index, the
    radices it holds at [n] successive indices from [i] on, their product,
    and the integer that digits [ds] (first digit first) denote in the
    radices [rs]. *)
Definition periodic (l : list Z) (i : Z) : Z :=
  nth (Z.to_nat (i mod len l)) l 0.

Definition radices (l : list Z) (i : Z) (n : nat) : list Z :=
  map (fun k => periodic l (i + Z.of_nat k)) (seq 0 n).

Definition weight (rs : list Z) : Z := fold_right Z.mul 1 rs.

Fixpoint mixed_value (rs ds : list Z) : Z :=
  match rs, ds with
  | _ :: rs', d :: ds' => d * weight rs' + mixed_value rs' ds'
  | _, _ => 0
  end.

(** The radix of a position (0 where the base has none), digits that are
    each below the radix of their position, and the integer that digits
    denote in units of the position of the first one.  The digits are
    given last digit first, the way [__add__] walks them: the first one
    stands at position [pos], the next one at [pos - 1], and so on. *)
Definition radix_at (b : RadixBase.t) (pos : Z) : Z :=
  match RadixBase.__getitem__ b pos with
  | Ok radix => radix
  | Raise _ => 0
  end.

Fixpoint in_range (b : RadixBase.t) (pos : Z) (ds : list Z) : Prop :=
  match ds with
  | [] => True
  | d :: ds' => 0 <= d < radix_at b pos /\ in_range b (pos - 1) ds'
  end.

Fixpoint units_from (b : RadixBase.t) (pos : Z) (ds : list Z) : Z :=
  match ds with
  | [] => 0
  | d :: ds' => d + radix_at b pos * units_from b (pos - 1) ds'
  end.

(** The digits of a value count units of its last fractional position. *)
Definition units (v : t) : Z :=
  units_from (base v) (significant v) (rev_digits v).

Definition proper (v : t) : Prop :=
  in_range (base v) (significant v) (rev_digits v).

(** What the loop of [add] needs to add exactly: no position is asked to
    hold twice its radix, the carry that may come in counted. *)
Fixpoint room (b : RadixBase.t) (pos carry : Z) (array to_add : list Z)
    {struct to_add} : Prop :=
  match to_add, array with
  | r :: to_add', x :: array' =>
      0 <= r /\ x + r + carry < 2 * radix_at b pos
      /\ room b (pos - 1) 1 array' to_add'
  | _, _ => True
  end.

(** Inversion of a chain of binds that returned. *)
Ltac bind_inv H :=
  repeat match type of H with
  | bind ?c _ = Ok _ =>
      let a := fresh "a" in
      let E := fresh "E" in
      destruct c as [a|] eqn:E; simpl in H; [|discriminate H]
  | (let* _ := ?c in _) = Ok _ =>
      let a := fresh "a" in
      let E := fresh "E" in
      destruct c as [a|] eqn:E; simpl in H; [|discriminate H]
  end.

(** The same, one bind at a time and without unfolding anything else. *)
Ltac bind_split H :=
  cbv beta zeta in H;
  repeat match type of H with
  | bind ?c ?k = Ok _ =>
      let a := fresh "a" in
      let E := fresh "E" in
      destruct c as [a|] eqn:E;
      [change (bind (Ok a) k) with (k a) in H; cbv beta zeta in H
      |discriminate H]
  end.

(** * Properties *)

(** ** The constructor *)

(** The range check never looks at the fractional digits. *)
Lemma check_range_ignores_right (b : RadixBase.t) (l r r' : list Z) (s : Z) :
  __check_range b l r s = __check_range b l r' s.
Proof. reflexivity. Qed.

(** What [new] returns has the base, fractional digits, remainder and sign
    it was given. *)
Lemma new_fields (b : RadixBase.t) (l r : list Z) (rem : float) (s : Z) (v : t) :
  new b l r rem s = Ok v ->
  base v = b /\ right v = r /\ remainder v = rem /\ sign v = s.
Proof.
  unfold new, bind. intros H.
  destruct (__check_range b l r s); [|discriminate].
  destruct (negb _).
  - destruct (__check_range b (__simplify_integer_part l) r s); [|discriminate].
    injection H as <-. repeat split.
  - injection H as <-. repeat split.
Qed.

(** The integer digits [new] returns, and whether it returns, depend only
    on the base, the integer digits and the sign it was given. *)
Lemma new_frame (b : RadixBase.t) (l r r' : list Z) (rem rem' : float) (s : Z) (v : t) :
  new b l r rem s = Ok v ->
  new b l r' rem' s = Ok (mk b (left v) r' rem' s).
Proof.
  unfold new, bind. rewrite (check_range_ignores_right b l r' r s).
  rewrite (check_range_ignores_right b (__simplify_integer_part l) r' r s).
  intros H.
  destruct (__check_range b l r s); [|discriminate].
  destruct (negb _).
  - destruct (__check_range b (__simplify_integer_part l) r s); [|discriminate].
    injection H as <-. reflexivity.
  - injection H as <-. reflexivity.
Qed.

Lemma simplify_integer_part_idem (l : list Z) :
  __simplify_integer_part (__simplify_integer_part l) = __simplify_integer_part l.
Proof.
  induction l as [|d l IH]; [reflexivity|].
  destruct d; simpl; auto.
Qed.

Lemma simplify_integer_part_length (l : list Z) :
  (List.length (__simplify_integer_part l) <= List.length l)%nat.
Proof.
  induction l as [|d l IH]; simpl; [lia|].
  destruct d; simpl; lia.
Qed.

Lemma simplify_integer_part_fixed (l : list Z) :
  len (__simplify_integer_part l) = len l -> __simplify_integer_part l = l.
Proof.
  unfold len. intros H. destruct l as [|d l]; [reflexivity|].
  destruct d; try reflexivity.
  simpl in H. pose proof (simplify_integer_part_length l). lia.
Qed.

(** Every value [new] returns is valid, in a base where the digit 0 is in
    range next to the radix point (any base whose two radix patterns are
    non-empty and hold no negative radix). *)
Lemma new_valid (b : RadixBase.t) (l r : list Z) (rem : float) (s : Z) (v : t) :
  __check_range b [0] [] s = Ok tt ->
  new b l r rem s = Ok v ->
  valid v.
Proof.
  intros H0 H. unfold valid.
  destruct (new_fields _ _ _ _ _ _ H) as (Hb & Hr & Hrem & Hs).
  rewrite Hb, Hr, Hrem, Hs.
  assert (Hzero : new b [0] r rem s = Ok (mk b [0] r rem s)).
  { unfold new. rewrite (check_range_ignores_right b [0] r [] s), H0. simpl.
    rewrite (check_range_ignores_right b [] r [] s).
    unfold __check_range in H0 |- *.
    destruct (negb ((s =? -1) || (s =? 1))); [discriminate|reflexivity]. }
  unfold new, bind in H.
  destruct (__check_range b l r s) eqn:Hc; [|discriminate].
  destruct (len (__simplify_integer_part l) =? len l) eqn:Hlen; simpl in H.
  - apply Z.eqb_eq, simplify_integer_part_fixed in Hlen.
    injection H as <-. simpl.
    destruct l as [|d l]; [exact Hzero|].
    unfold new, bind. cbv zeta. rewrite Hc, Hlen, Z.eqb_refl. reflexivity.
  - destruct (__check_range b (__simplify_integer_part l) r s) eqn:Hc'; [|discriminate].
    injection H as <-. simpl.
    pose proof (simplify_integer_part_idem l) as Hid.
    destruct (__simplify_integer_part l) as [|d l'] eqn:Hl'; [exact Hzero|].
    unfold new, bind. cbv zeta.
    rewrite Hc', Hid, Z.eqb_refl. reflexivity.
Qed.

(** Slices with a non-negative stop and no start are prefixes. *)
Lemma slice_prefix {A : Type} (l : list A) (n : Z) :
  0 <= n -> slice l None (Some n) = firstn (Z.to_nat n) l.
Proof.
  intros Hn. unfold slice, clamp, len.
  destruct (n <? 0) eqn:Hneg; [apply Z.ltb_lt in Hneg; lia|].
  simpl skipn. rewrite Nat.sub_0_r.
  destruct (Z.le_gt_cases n (Z.of_nat (List.length l))) as [Hle|Hgt].
  - rewrite Z.min_r, Z.max_r by lia. reflexivity.
  - rewrite Z.min_l, Z.max_r by lia. rewrite Nat2Z.id.
    rewrite firstn_all, firstn_all2 by lia. reflexivity.
Qed.

(** Slices with a non-negative start and no stop are suffixes. *)
Lemma slice_suffix {A : Type} (l : list A) (n : Z) :
  0 <= n -> slice l (Some n) None = skipn (Z.to_nat n) l.
Proof.
  intros Hn. unfold slice, clamp, len.
  destruct (n <? 0) eqn:Hneg; [apply Z.ltb_lt in Hneg; lia|].
  rewrite firstn_all2 by (rewrite length_skipn; lia).
  destruct (Z.le_gt_cases n (Z.of_nat (List.length l))) as [Hle|Hgt].
  - rewrite Z.min_r, Z.max_r by lia. reflexivity.
  - rewrite Z.min_l, Z.max_r by lia. rewrite Nat2Z.id.
    rewrite !skipn_all2 by lia. reflexivity.
Qed.

(** ** Truncation *)

(** C9, as the source has it.  For a valid value [v] and [n >= 0],
    [truncate] always returns.  When [n] is at most the number of
    fractional digits, the result keeps the base, the sign and the integer
    digits of [v], has the first [n] fractional digits of [v], and a
    remainder of 0.  When [n] exceeds that number, the result is [v]
    itself, remainder included. *)
Theorem truncate_spec (v : t) (n : Z) :
  valid v ->
  0 <= n ->
  (n <= len (right v) ->
   truncate v n
   = Ok (mk (base v) (left v) (firstn (Z.to_nat n) (right v)) 0%float (sign v)))
  /\ (len (right v) < n -> truncate v n = Ok v).
Proof.
  intros Hv Hn. unfold truncate. split; intros Hlen.
  - destruct (n >? len (right v)) eqn:Hgt; [apply Z.gtb_lt in Hgt; lia|].
    rewrite slice_prefix by exact Hn.
    exact (new_frame _ _ _ _ _ _ _ _ Hv).
  - destruct (n >? len (right v)) eqn:Hgt; [reflexivity|].
    rewrite Z.gtb_ltb in Hgt. apply Z.ltb_ge in Hgt. lia.
Qed.

Lemma truncate_spec_witness :
  truncate half_remainder 0
  = Ok (mk RadixBase.sexagesimal [1] [] 0%float 1)
  /\ truncate half_remainder 1 = Ok half_remainder.
Proof.
  assert (Hv : valid half_remainder) by (vm_compute; reflexivity).
  assert (Hn0 : 0 <= 0) by lia.
  assert (Hn1 : 0 <= 1) by lia.
  split.
  - apply (truncate_spec half_remainder 0 Hv Hn0). vm_compute. discriminate.
  - apply (truncate_spec half_remainder 1 Hv Hn1). vm_compute. reflexivity.
Defined.

(** The claim of C9 as the spec words it fails where [n] exceeds the number
    of fractional digits: [Sexagesimal((1,), (), remainder=0.5)] truncated
    to one position is returned as it is, its remainder still 0.5. *)
Lemma truncate_keeps_remainder_counterexample :
  valid half_remainder
  /\ 0 <= 1
  /\ ~ (exists r, truncate half_remainder 1 = Ok r
                  /\ right r = firstn 1 (right half_remainder)
                  /\ remainder r = 0%float
                  /\ sign r = sign half_remainder
                  /\ left r = left half_remainder).
Proof.
  split; [vm_compute; reflexivity|]. split; [lia|].
  intros (r & Hr & _ & Hrem & _).
  vm_compute in Hr. injection Hr as <-. simpl in Hrem.
  assert (H : PrimFloat.eqb 0.5%float 0%float = true)
    by (rewrite Hrem; reflexivity).
  vm_compute in H. discriminate.
Qed.

(** ** Shifting the radix point *)

Lemma check_loop_fits (b : RadixBase.t) (pos : Z -> Z) (l : list Z) (i : Z) :
  Forall (fits b) l -> check_loop b pos i l = Ok tt.
Proof.
  intros Hl. revert i. induction Hl as [|d l Hd _ IH]; intros i; [reflexivity|].
  simpl. destruct (Hd (pos i)) as (radix & -> & Hlo & Hhi). simpl.
  destruct (d <? 0) eqn:Hneg; [apply Z.ltb_lt in Hneg; lia|].
  destruct (d >? radix) eqn:Hgt; [apply Z.gtb_lt in Hgt; lia|].
  simpl. apply IH.
Qed.

Lemma valid_sign (v : t) : valid v -> sign v = 1 \/ sign v = -1.
Proof.
  unfold valid, new, __check_range, bind. intros H.
  destruct (sign v =? -1) eqn:Hm; [apply Z.eqb_eq in Hm; auto|].
  destruct (sign v =? 1) eqn:Hp; [apply Z.eqb_eq in Hp; auto|].
  simpl in H. discriminate.
Qed.

Lemma simplify_integer_part_fits (b : RadixBase.t) (l : list Z) :
  Forall (fits b) l -> Forall (fits b) (__simplify_integer_part l).
Proof.
  induction 1 as [|d l Hd Hl IH]; [constructor|].
  destruct d; simpl; auto.
Qed.

(** When the sign is a sign and the integer digits fit, [new] returns the
    value made of the trimmed integer digits. *)
Lemma new_fits (b : RadixBase.t) (l r : list Z) (rem : float) (s : Z) :
  s = 1 \/ s = -1 ->
  Forall (fits b) l ->
  new b l r rem s = Ok (finish b (__simplify_integer_part l) r rem s).
Proof.
  intros Hs Hl.
  assert (Hcheck : forall l', Forall (fits b) l' -> __check_range b l' r s = Ok tt).
  { intros l' Hl'. unfold __check_range.
    replace ((s =? -1) || (s =? 1)) with true
      by (destruct Hs as [-> | ->]; reflexivity).
    simpl. rewrite check_loop_fits by (apply Forall_rev; exact Hl').
    simpl. apply check_loop_fits. exact Hl'. }
  unfold new. rewrite (Hcheck l Hl). simpl.
  rewrite (Hcheck _ (simplify_integer_part_fits b l Hl)). simpl.
  destruct (len (__simplify_integer_part l) =? len l) eqn:Hlen; simpl.
  - apply Z.eqb_eq, simplify_integer_part_fixed in Hlen. rewrite Hlen. reflexivity.
  - reflexivity.
Qed.

Lemma slice_fits {P : Z -> Prop} (l : list Z) (a c : option Z) :
  Forall P l -> Forall P (slice l a c).
Proof.
  intros Hl. unfold slice. apply Forall_take, Forall_drop, Hl.
Qed.

Lemma repeat_tuple_fits {P : Z -> Prop} (x n : Z) :
  P x -> Forall P (repeat_tuple x n).
Proof.
  intros Hx. unfold repeat_tuple.
  induction (Z.to_nat n); simpl; constructor; auto.
Qed.

(** In the bases of one radix every digit from 0 up to the radix fits. *)
Lemma fits_sexagesimal (d : Z) : 0 <= d <= 60 -> fits RadixBase.sexagesimal d.
Proof.
  intros Hd pos. exists 60. split; [|exact Hd].
  unfold RadixBase.__getitem__, LoopingList.__getitem__, len. simpl.
  destruct (pos <=? 0); rewrite Z.mod_1_r; reflexivity.
Qed.

(** C10, as the source has it.  Whenever [shift] returns a value, that
    value has the sign, the remainder field and the base of [v]: the
    remainder is handed over unscaled.  (For [i = 0] the value returned is
    [v] itself.)  [shift] does not always return, since the constructor
    checks the moved digits against the radices of their new positions; it
    does return when 0 and all digits of [v] fit every position of the
    base, as the digits 0 to 60 do in sexagesimal. *)
Theorem shift_frame (v : t) (i : Z) :
  (forall r, shift v i = Ok r ->
             sign r = sign v /\ remainder r = remainder v /\ base r = base v)
  /\ (valid v -> Forall (fits (base v)) (0 :: digits v) ->
      exists r, shift v i = Ok r).
Proof.
  split.
  - intros r. unfold shift. destruct (i =? 0).
    + intros H. injection H as <-. repeat split.
    + intros H. apply new_fields in H. tauto.
  - intros Hv Hfit. unfold shift. destruct (i =? 0); [eexists; reflexivity|].
    rewrite new_fits; [eexists; reflexivity | exact (valid_sign v Hv) |].
    apply slice_fits. inversion Hfit as [|? ? H0 Hd]; subst.
    rewrite !Forall_app. repeat split; auto using repeat_tuple_fits.
Qed.

Lemma shift_frame_witness :
  shift one_two_three (-2)
  = Ok (mk RadixBase.sexagesimal [1; 2; 3; 4; 5] [6; 0; 0] 0.25%float (-1))
  /\ sign (mk RadixBase.sexagesimal [1; 2; 3; 4; 5] [6; 0; 0] 0.25%float (-1))
     = sign one_two_three
  /\ remainder (mk RadixBase.sexagesimal [1; 2; 3; 4; 5] [6; 0; 0] 0.25%float (-1))
     = remainder one_two_three
  /\ exists r, shift one_two_three 5 = Ok r.
Proof.
  assert (H : shift one_two_three (-2)
              = Ok (mk RadixBase.sexagesimal [1; 2; 3; 4; 5] [6; 0; 0] 0.25%float (-1)))
    by (vm_compute; reflexivity).
  assert (Hv : valid one_two_three) by (vm_compute; reflexivity).
  assert (Hfit : Forall (fits (base one_two_three)) (0 :: digits one_two_three))
    by (repeat constructor; apply fits_sexagesimal; lia).
  split; [exact H|].
  destruct (proj1 (shift_frame one_two_three (-2)) _ H) as (Hs & Hr & _).
  split; [exact Hs|]. split; [exact Hr|].
  exact (proj2 (shift_frame one_two_three 5) Hv Hfit).
Defined.

(** The claim of C10 as the spec words it fails where the shift raises:
    [Historical((29,), ())] shifted by -1 would hold 29 at position -1,
    whose radix is 12, and the constructor refuses it. *)
Lemma shift_raises_counterexample :
  valid twenty_nine
  /\ -1 <> 0
  /\ shift twenty_nine (-1) = Raise IllegalBaseValueError
  /\ ~ (exists r, shift twenty_nine (-1) = Ok r
                  /\ sign r = sign twenty_nine
                  /\ remainder r = remainder twenty_nine).
Proof.
  assert (H : shift twenty_nine (-1) = Raise IllegalBaseValueError)
    by (vm_compute; reflexivity).
  split; [vm_compute; reflexivity|]. split; [lia|]. split; [exact H|].
  intros (r & Hr & _). rewrite H in Hr. discriminate.
Qed.

(** ** Division *)

(** C3: [division] never returns a value.  Operands of different classes
    raise [TypeMismatch]; operands of one class raise at the assignment to
    the read-only [sign], and the quotient loop behind it would call
    [euclidian_div], which raises [NotImplementedError] on every input. *)
Theorem division_never_returns (self other : t) (significant : Z) :
  division self other significant
  = Raise (if same_type self other then AttributeError else TypeMismatch)
  /\ __truediv__ self other
     = Raise (if same_type self other then AttributeError else TypeMismatch)
  /\ euclidian_div self other = Raise NotImplementedError.
Proof.
  unfold __truediv__, division, euclidian_div.
  destruct (same_type self other); repeat split.
Qed.

(** ** Operands of different classes *)

Lemma add_same_type_base (self other r : t) :
  add_same_type self other = Ok r -> base r = base self.
Proof.
  unfold add_same_type. intros H. bind_inv H.
  apply new_fields in H. tauto.
Qed.

(** C7, as the source has it.  Between values of different classes,
    [division] (and [/]) raises [TypeMismatch].  Addition does not: it
    reads the other operand as a float, rebuilds it in the class of [self]
    at the significance of [self], and adds the two there, so a sum that
    is returned is of the class of [self].  Subtraction is that addition
    on the negated operand. *)
Theorem cross_class_operands (self other : t) (significant : Z) :
  same_type self other = false ->
  division self other significant = Raise TypeMismatch
  /\ __truediv__ self other = Raise TypeMismatch
  /\ __add__ self (Based other)
     = (let* x := __float__ other in
        let* c := from_float (base self) x (len (right self)) in
        add_same_type self c)
  /\ __sub__ self other
     = (let* o := __neg__ other in
        let* x := __float__ o in
        let* c := from_float (base self) x (len (right self)) in
        add_same_type self c)
  /\ (forall r, __add__ self (Based other) = Ok r -> base r = base self).
Proof.
  intros Hne.
  assert (Hadd : __add__ self (Based other)
                 = (let* x := __float__ other in
                    let* c := from_float (base self) x (len (right self)) in
                    add_same_type self c))
    by (unfold __add__; rewrite Hne; reflexivity).
  split; [unfold division; rewrite Hne; reflexivity|].
  split; [unfold __truediv__, division; rewrite Hne; reflexivity|].
  split; [exact Hadd|].
  split.
  - unfold __sub__. destruct (__neg__ other) as [o|e] eqn:Ho; [|reflexivity].
    simpl. unfold __neg__ in Ho. apply new_fields in Ho.
    destruct Ho as (Hb & _).
    unfold same_type in *. rewrite Hb. rewrite Hne. reflexivity.
  - intros r Hr. rewrite Hadd in Hr. bind_inv Hr.
    exact (add_same_type_base _ _ _ Hr).
Qed.

Lemma cross_class_operands_witness :
  division one_sexagesimal one_decimal 3 = Raise TypeMismatch
  /\ __add__ one_sexagesimal (Based one_decimal)
     = (let* x := __float__ one_decimal in
        let* c := from_float RadixBase.sexagesimal x 0 in
        add_same_type one_sexagesimal c).
Proof.
  assert (Hne : same_type one_sexagesimal one_decimal = false)
    by (vm_compute; reflexivity).
  destruct (cross_class_operands one_sexagesimal one_decimal 3 Hne)
    as (Hdiv & _ & Hadd & _).
  split; [exact Hdiv | exact Hadd].
Defined.

(** The claim of C7 as the spec words it fails for addition:
    [Sexagesimal(1) + Decimal(1)] is [Sexagesimal(2)], not a
    [TypeMismatch]. *)
Lemma cross_class_add_counterexample :
  valid one_sexagesimal
  /\ valid one_decimal
  /\ same_type one_sexagesimal one_decimal = false
  /\ __add__ one_sexagesimal (Based one_decimal)
     = Ok (mk RadixBase.sexagesimal [2] [] 0%float 1)
  /\ __add__ one_sexagesimal (Based one_decimal) <> Raise TypeMismatch.
Proof.
  assert (H : __add__ one_sexagesimal (Based one_decimal)
              = Ok (mk RadixBase.sexagesimal [2] [] 0%float 1))
    by (vm_compute; reflexivity).
  repeat split; try (vm_compute; reflexivity).
  rewrite H. discriminate.
Qed.

(** ** The range check *)

(** C4 at its failing inputs.  [Sexagesimal((1,), (75,))] is built with
    the fractional digit 75, and [Sexagesimal((60,), ())] with the integer
    digit 60, the radix itself; whatever the fractional digits are, the
    outcome of the check is the same. *)
Theorem check_range_gaps (float_of_string : string -> result float) :
  __new__ float_of_string RadixBase.sexagesimal (Tuples [1] [75]) 0%float 1
  = Ok (mk RadixBase.sexagesimal [1] [75] 0%float 1)
  /\ __new__ float_of_string RadixBase.sexagesimal (Tuples [60] []) 0%float 1
     = Ok (mk RadixBase.sexagesimal [60] [] 0%float 1)
  /\ __new__ float_of_string RadixBase.sexagesimal (Tuples [61] []) 0%float 1
     = Raise IllegalBaseValueError
  /\ (forall b l r r' s, __check_range b l r s = __check_range b l r' s).
Proof.
  repeat split; vm_compute; reflexivity.
Qed.

(** ** Registration *)

(** C5 at its failing input.  [__init__] holds no test of the radices:
    every registration returns, stores the base under its name and mints
    its class; so does [RadixBase([1], [2], "Sexagesimal")], the call the
    test suite expects to raise. *)
Theorem init_never_rejects (left right : list Z) (name : string)
    (seps : option (list string)) (st : RadixBase.registry) :
  (exists self st',
      RadixBase.__init__ left right name seps st = Ok (self, st')
      /\ RadixBase.left self = left
      /\ RadixBase.right self = right
      /\ RadixBase.name_to_base st' !! name = Some self
      /\ RadixBase.module_types st' !! RadixBase.type_name name = Some self)
  /\ (exists self st',
      RadixBase.__init__ [1] [2] "Sexagesimal" None st = Ok (self, st')
      /\ RadixBase.left self = [1]
      /\ RadixBase.name_to_base st' !! "Sexagesimal"%string = Some self
      /\ RadixBase.module_types st' !! "Sexagesimal"%string = Some self).
Proof.
  split.
  - unfold RadixBase.__init__. eexists _, _. split; [reflexivity|]. simpl.
    repeat split; apply lookup_insert_eq.
  - unfold RadixBase.__init__. eexists _, _. split; [reflexivity|]. simpl.
    repeat split; apply lookup_insert_eq.
Qed.

(** The registry the module builds when it is imported binds the standard
    names to the bases used in the scenarios. *)
Lemma startup_registry :
  (let* st := RadixBase.startup in
   Ok (RadixBase.name_to_base st !! "sexagesimal"%string,
       RadixBase.name_to_base st !! "decimal"%string,
       RadixBase.name_to_base st !! "historical"%string,
       RadixBase.name_to_base st !! "temporal"%string,
       RadixBase.module_types st !! "Sexagesimal"%string,
       RadixBase.module_types st !! "Historical"%string))
  = Ok (Some RadixBase.sexagesimal, Some RadixBase.decimal,
        Some RadixBase.historical, Some RadixBase.temporal,
        Some RadixBase.sexagesimal, Some RadixBase.historical).
Proof.
  vm_compute. reflexivity.
Qed.

(** ** Addition *)

(** C6 at its failing input.  With [a = Sexagesimal(1)] and [-a], the sum
    [a + (-a)] is a zero of sign -1 and [(-a) + a] a zero of sign +1: the
    tie between equal magnitudes goes to the sign of the right operand.
    [==] compares signs, so the two sums are unequal, and [a + (-a)] is
    unequal to [zero(0)]; it equals the plain number 0 only because a
    number is compared through floats. *)
Theorem add_opposite_sign :
  __neg__ one_sexagesimal = Ok minus_one_sexagesimal
  /\ __add__ one_sexagesimal (Based minus_one_sexagesimal)
     = Ok (mk RadixBase.sexagesimal [0] [] 0%float (-1))
  /\ __add__ minus_one_sexagesimal (Based one_sexagesimal)
     = Ok (mk RadixBase.sexagesimal [0] [] 0%float 1)
  /\ (let* x := __add__ one_sexagesimal (Based minus_one_sexagesimal) in
      let* y := __add__ minus_one_sexagesimal (Based one_sexagesimal) in
      __eq__ x (Based y)) = Ok false
  /\ zero RadixBase.sexagesimal 0 = Ok (mk RadixBase.sexagesimal [0] [] 0%float 1)
  /\ (let* x := __add__ one_sexagesimal (Based minus_one_sexagesimal) in
      let* z := zero RadixBase.sexagesimal 0 in
      __eq__ x (Based z)) = Ok false
  /\ (let* x := __add__ one_sexagesimal (Based minus_one_sexagesimal) in
      __eq__ x (Float 0%float)) = Ok true.
Proof.
  repeat split; vm_compute; reflexivity.
Qed.

(** ** The scenarios *)

(** C1: ["01, 12; 04, 17"] times ["7; 45, 55"] in sexagesimal is the value
    9,19 ; 39,15,40,35, which prints as ["09,19 ; 39,15,40,35"]. *)
Theorem mul_scenario (float_of_string : string -> result float) :
  (let* a := from_string float_of_string RadixBase.sexagesimal "01, 12; 04, 17" in
   let* b := from_string float_of_string RadixBase.sexagesimal "7; 45, 55" in
   let* c := __mul__ a (Based b) in
   let* s := __repr__ c in
   Ok (a, b, c, s))
  = Ok (mk RadixBase.sexagesimal [1; 12] [4; 17] 0%float 1,
        mk RadixBase.sexagesimal [7] [45; 55] 0%float 1,
        mk RadixBase.sexagesimal [9; 19] [39; 15; 40; 35] 0%float 1,
        "09,19 ; 39,15,40,35"%string).
Proof.
  vm_compute. reflexivity.
Qed.

(** C2: ["01, 21; 47, 25"] plus ["45; 32, 14, 22"] in sexagesimal is the
    value 2,07 ; 19,39,22, which prints as ["02,07 ; 19,39,22"]; the first
    operand is resized to the three fractional positions of the second. *)
Theorem add_scenario (float_of_string : string -> result float) :
  (let* a := from_string float_of_string RadixBase.sexagesimal "01, 21; 47, 25" in
   let* b := from_string float_of_string RadixBase.sexagesimal "45; 32, 14, 22" in
   let* a3 := resize a 3 in
   let* c := __add__ a (Based b) in
   let* s := __repr__ c in
   Ok (a, b, a3, c, s))
  = Ok (mk RadixBase.sexagesimal [1; 21] [47; 25] 0%float 1,
        mk RadixBase.sexagesimal [45] [32; 14; 22] 0%float 1,
        mk RadixBase.sexagesimal [1; 21] [47; 25; 0] 0%float 1,
        mk RadixBase.sexagesimal [2; 7] [19; 39; 22] 0%float 1,
        "02,07 ; 19,39,22"%string).
Proof.
  vm_compute. reflexivity.
Qed.

(** ** Rounding *)

(** The unit [__round__] adds, [type(v)(1, sign=s).shift(n)] for [n > 0],
    is 0 ; 0,...,0,1 with [n] fractional positions and the sign [s], in
    every base where the digits 0 and 1 fit. *)
Lemma round_unit (b : RadixBase.t) (s n : Z) :
  fits b 0 -> fits b 1 -> s = 1 \/ s = -1 -> 0 < n ->
  (let* unit := new b [1] [] 0%float s in shift unit n)
  = Ok (mk b [0] (repeat 0 (Z.to_nat (n - 1)) ++ [1]) 0%float s).
Proof.
  intros H0 H1 Hs Hn.
  rewrite new_fits by (auto using Forall_cons, Forall_nil). simpl.
  unfold shift, finish. simpl.
  destruct (n =? 0) eqn:Hz; [apply Z.eqb_eq in Hz; lia|].
  destruct (n >? 0) eqn:Hp; [|rewrite Z.gtb_ltb in Hp; apply Z.ltb_ge in Hp; lia].
  destruct (- n >? len [1]) eqn:Hm;
    [apply Z.gtb_lt in Hm; unfold len in Hm; simpl in Hm; lia|].
  unfold digits, repeat_tuple. simpl.
  replace (Z.to_nat (- n)) with 0%nat by lia.
  replace (Z.to_nat n) with (S (Z.to_nat (n - 1))) by lia.
  set (m := Z.to_nat (n - 1)).
  change (repeat 0 (S m) ++ 1 :: repeat 0 0) with (0 :: (repeat 0 m ++ [1])).
  change (len [1]) with 1.
  rewrite slice_prefix, slice_suffix by lia. simpl.
  rewrite new_fits by (auto using Forall_cons, Forall_nil). reflexivity.
Qed.

(** C8 at its failing inputs.  The fractional radices of [temporal] are
    24, 60, 24, ...  When [resize] drops digits it reads them as the
    fractional digits of a value of their own, from the first fractional
    position on, whatever position they stood at.  For 0 ; 23,30 resized to
    one position the dropped 30 is weighed by 24 instead of 60: the
    remainder is 1.25, [__round__] adds the unit 0 ; 01, the addition takes
    the whole part of the remainder as a carry of its own, and the result
    is 1 ; 01, two units above 0 ; 23, where one unit above it is 1 ; 00.
    For 0 ; 00,20 the remainder is 20/24, and the value is rounded up to
    0 ; 01 although 20/60 is less than a half.  In sexagesimal, where the
    radix is 60 at every position, the scenario of the spec gives the
    value that prints as ["02,02 ; 07,23,55,12"], on -59 ; 59,59,59,30
    rounded to three positions the carry runs through every position,
    away from zero, and a remainder below 0.5 is dropped. *)
Theorem round_mixed_radix (float_of_string : string -> result float) :
  __new__ float_of_string RadixBase.temporal (Tuples [0] [23; 30]) 0%float 1
  = Ok late_hour
  /\ (let* r := resize late_hour 1 in
      let* t := truncate late_hour 1 in
      let* unit := new RadixBase.temporal [1] [] 0%float 1 in
      let* unit := shift unit 1 in
      let* next := __add__ t (Based unit) in
      let* w := __round__ late_hour (Some 1) in
      Ok (r, t, unit, next, w))
     = Ok (mk RadixBase.temporal [0] [23] 1.25%float 1,
           mk RadixBase.temporal [0] [23] 0%float 1,
           mk RadixBase.temporal [0] [1] 0%float 1,
           mk RadixBase.temporal [1] [0] 0%float 1,
           mk RadixBase.temporal [1] [1] 0%float 1)
  /\ (let* r := resize twenty_minutes 1 in
      let* w := __round__ twenty_minutes (Some 1) in
      Ok (right r, fge (remainder r) 0.5%float, (remainder r <? 1)%float, w))
     = Ok ([0], true, true, mk RadixBase.temporal [0] [1] 0%float 1)
  /\ (let* v := from_string float_of_string RadixBase.sexagesimal
                  "02, 02; 07, 23, 55, 11, 51, 21, 36" in
      let* r4 := resize v 4 in
      let* unit := new RadixBase.sexagesimal [1] [] 0%float 1 in
      let* unit := shift unit 4 in
      let* r := __round__ v (Some 4) in
      let* s := __repr__ r in
      Ok (v, right r4, fge (remainder r4) 0.5%float, unit, r, s))
     = Ok (mk RadixBase.sexagesimal [2; 2] [7; 23; 55; 11; 51; 21; 36] 0%float 1,
           [7; 23; 55; 11], true,
           mk RadixBase.sexagesimal [0] [0; 0; 0; 1] 0%float 1,
           mk RadixBase.sexagesimal [2; 2] [7; 23; 55; 12] 0%float 1,
           "02,02 ; 07,23,55,12"%string)
  /\ __round__ (mk RadixBase.sexagesimal [59] [59; 59; 59; 30] 0%float (-1)) (Some 3)
     = Ok (mk RadixBase.sexagesimal [1; 0] [0; 0; 0] 0%float (-1))
  /\ __round__ (mk RadixBase.sexagesimal [2; 2] [7; 23; 55; 11; 29] 0%float 1) (Some 4)
     = Ok (mk RadixBase.sexagesimal [2; 2] [7; 23; 55; 11] 0%float 1).
Proof.
  repeat split; vm_compute; reflexivity.
Qed.

(** * Further properties *)

(** ** The constructor, again *)

Lemma simplify_integer_part_head (l : list Z) :
  exists k, l = repeat 0 k ++ __simplify_integer_part l
            /\ hd 1 (__simplify_integer_part l) <> 0.
Proof.
  induction l as [|d l (k & Hk & Hh)].
  - exists 0%nat. simpl. split; [reflexivity|lia].
  - destruct d.
    + exists (S k). simpl. rewrite <- Hk. split; [reflexivity|exact Hh].
    + exists 0%nat. simpl. split; [reflexivity|lia].
    + exists 0%nat. simpl. split; [reflexivity|lia].
Qed.

Lemma canon_normal (l : list Z) : normal (canon l).
Proof.
  unfold canon, normal.
  destruct (simplify_integer_part_head l) as (k & _ & Hh).
  destruct (__simplify_integer_part l) as [|d l']; [left; reflexivity|].
  right. exact Hh.
Qed.

Lemma canon_fixed (l : list Z) : normal l -> canon l = l.
Proof.
  unfold canon. intros [-> | Hh]; [reflexivity|].
  destruct l as [|d l]; [simpl in Hh; lia|].
  destruct d; simpl in *; try reflexivity. lia.
Qed.

(** The integer digits of what [new] returns are the canonical form of the
    digits it was given. *)
Lemma new_left (b : RadixBase.t) (l r : list Z) (rem : float) (s : Z) (v : t) :
  new b l r rem s = Ok v -> left v = canon l.
Proof.
  unfold new, bind, canon. intros H.
  destruct (__check_range b l r s); [|discriminate].
  destruct (len (__simplify_integer_part l) =? len l) eqn:Hlen; simpl in H.
  - apply Z.eqb_eq, simplify_integer_part_fixed in Hlen.
    injection H as <-. simpl. rewrite Hlen. destruct l; reflexivity.
  - destruct (__check_range b (__simplify_integer_part l) r s); [|discriminate].
    injection H as <-. simpl. destruct (__simplify_integer_part l); reflexivity.
Qed.

Lemma new_left_normal (b : RadixBase.t) (l r : list Z) (rem : float) (s : Z) (v : t) :
  new b l r rem s = Ok v -> normal l -> left v = l.
Proof.
  intros H Hn. rewrite (new_left _ _ _ _ _ _ H). apply canon_fixed, Hn.
Qed.

Lemma valid_normal (v : t) : valid v -> normal (left v).
Proof.
  intros Hv. rewrite (new_left _ _ _ _ _ _ Hv) at 1. apply canon_normal.
Qed.

(** X1: the integer digits of a constructed value are the given ones
    without their leading zeros, with the single digit 0 when nothing is
    left: they are never empty, and start with a zero only when they are
    that single 0. *)
Theorem new_trims_leading_zeros (b : RadixBase.t) (l r : list Z) (rem : float)
    (s : Z) (v : t) :
  new b l r rem s = Ok v ->
  (exists k, l = repeat 0 k ++ __simplify_integer_part l)
  /\ left v = (match __simplify_integer_part l with [] => [0] | l' => l' end)
  /\ left v <> []
  /\ (left v = [0] \/ hd 0 (left v) <> 0).
Proof.
  intros H. pose proof (new_left _ _ _ _ _ _ H) as Hl.
  pose proof (canon_normal l) as Hn. rewrite <- Hl in Hn.
  destruct (simplify_integer_part_head l) as (k & Hk & _).
  split; [exists k; exact Hk|]. split; [exact Hl|]. split; [|exact Hn].
  destruct Hn as [-> | Hh]; [discriminate|].
  intros E. rewrite E in Hh. simpl in Hh. lia.
Qed.

Lemma new_trims_leading_zeros_witness :
  new RadixBase.sexagesimal [0; 0; 5; 0] [7] 0%float 1
  = Ok (mk RadixBase.sexagesimal [5; 0] [7] 0%float 1)
  /\ left (mk RadixBase.sexagesimal [5; 0] [7] 0%float 1) <> [].
Proof.
  assert (H : new RadixBase.sexagesimal [0; 0; 5; 0] [7] 0%float 1
              = Ok (mk RadixBase.sexagesimal [5; 0] [7] 0%float 1))
    by (vm_compute; reflexivity).
  split; [exact H|].
  exact (proj1 (proj2 (proj2 (new_trims_leading_zeros _ _ _ _ _ _ H)))).
Defined.

Lemma check_loop_bounds (b : RadixBase.t) (pos : Z -> Z) (l : list Z) (i : Z) :
  check_loop b pos i l = Ok tt ->
  forall (k : nat) (d : Z),
    nth_error l k = Some d ->
    exists radix,
      RadixBase.__getitem__ b (pos (i + Z.of_nat k)) = Ok radix /\ 0 <= d <= radix.
Proof.
  revert i. induction l as [|x l IH]; intros i H k d Hk.
  - destruct k; discriminate.
  - simpl in H. unfold bind in H.
    destruct (RadixBase.__getitem__ b (pos i)) as [radix|] eqn:Hr; [|discriminate].
    destruct (x <? 0) eqn:Hneg; [discriminate|].
    destruct (x >? radix) eqn:Hgt; [discriminate|]. simpl in H.
    destruct k as [|k].
    + injection Hk as <-. exists radix. rewrite Z.add_0_r.
      apply Z.ltb_ge in Hneg. rewrite Z.gtb_ltb in Hgt. apply Z.ltb_ge in Hgt.
      split; [exact Hr|lia].
    + replace (i + Z.of_nat (S k)) with (i + 1 + Z.of_nat k) by lia.
      exact (IH _ H k d Hk).
Qed.

(** X2: what the range check does enforce.  When the constructor returns,
    the sign is +1 or -1, every integer digit it was given lies between 0
    and the radix of its position, that radix included, and, counted from
    the front, the [k]-th integer digit also lies between 0 and the radix
    of the fractional position [k + 1]. *)
Theorem new_integer_digits_bounded (b : RadixBase.t) (l r : list Z) (rem : float)
    (s : Z) (v : t) :
  new b l r rem s = Ok v ->
  (s = 1 \/ s = -1)
  /\ (forall (k : nat) (d : Z),
         nth_error (rev l) k = Some d ->
         exists radix,
           RadixBase.__getitem__ b (- Z.of_nat k) = Ok radix /\ 0 <= d <= radix)
  /\ (forall (k : nat) (d : Z),
         nth_error l k = Some d ->
         exists radix,
           RadixBase.__getitem__ b (Z.of_nat k + 1) = Ok radix /\ 0 <= d <= radix).
Proof.
  unfold new, bind. intros H.
  destruct (__check_range b l r s) as [[]|] eqn:Hc; [|discriminate]. clear H.
  unfold __check_range, bind in Hc.
  destruct (s =? -1) eqn:Hm; destruct (s =? 1) eqn:Hp; simpl in Hc;
    try discriminate;
    (destruct (check_loop b (fun i => - i) 0 (rev l)) as [[]|] eqn:H1;
       [|discriminate]);
    (split; [first [apply Z.eqb_eq in Hp; auto | apply Z.eqb_eq in Hm; auto]|]);
    (split; intros k d Hk;
       [exact (check_loop_bounds _ _ _ _ H1 k d Hk)
       |exact (check_loop_bounds _ _ _ _ Hc k d Hk)]).
Qed.

Lemma new_integer_digits_bounded_witness :
  exists radix,
    RadixBase.__getitem__ RadixBase.historical (- Z.of_nat 1) = Ok radix
    /\ 0 <= 7 <= radix.
Proof.
  assert (H : new RadixBase.historical [2; 7; 29] [45] 0%float 1
              = Ok (mk RadixBase.historical [2; 7; 29] [45] 0%float 1))
    by (vm_compute; reflexivity).
  exact (proj1 (proj2 (new_integer_digits_bounded _ _ _ _ _ _ H)) 1%nat 7
           eq_refl).
Defined.

(** X3: a constructed value is a fixed point of the constructor, in a base
    where the digit 0 passes the range check: building it again from its
    own fields returns it unchanged. *)
Theorem new_idempotent (b : RadixBase.t) (l r : list Z) (rem : float) (s : Z)
    (v : t) :
  __check_range b [0] [] s = Ok tt ->
  new b l r rem s = Ok v ->
  new (base v) (left v) (right v) (remainder v) (sign v) = Ok v.
Proof.
  intros H0 H. exact (new_valid b l r rem s v H0 H).
Qed.

Lemma new_idempotent_witness :
  new RadixBase.historical [0; 0] [45] 0.5%float (-1)
  = Ok (mk RadixBase.historical [0] [45] 0.5%float (-1))
  /\ new RadixBase.historical [0] [45] 0.5%float (-1)
     = Ok (mk RadixBase.historical [0] [45] 0.5%float (-1)).
Proof.
  assert (H0 : __check_range RadixBase.historical [0] [] (-1) = Ok tt)
    by (vm_compute; reflexivity).
  assert (H : new RadixBase.historical [0; 0] [45] 0.5%float (-1)
              = Ok (mk RadixBase.historical [0] [45] 0.5%float (-1)))
    by (vm_compute; reflexivity).
  split; [exact H|].
  exact (new_idempotent _ _ _ _ _ _ H0 H).
Defined.

(** ** Sign *)

Lemma check_range_opp (b : RadixBase.t) (l r : list Z) (s : Z) :
  __check_range b l r (- s) = __check_range b l r s.
Proof.
  unfold __check_range.
  replace ((- s =? -1) || (- s =? 1)) with ((s =? -1) || (s =? 1)); [reflexivity|].
  destruct (Z.eqb_spec s (-1)), (Z.eqb_spec s 1), (Z.eqb_spec (- s) (-1)),
    (Z.eqb_spec (- s) 1); simpl; try reflexivity; lia.
Qed.

Lemma new_opp (b : RadixBase.t) (l r : list Z) (rem : float) (s : Z) (v : t) :
  new b l r rem s = Ok v ->
  new b l r rem (- s) = Ok (mk b (left v) r rem (- s)).
Proof.
  unfold new, bind. rewrite !check_range_opp. intros H.
  destruct (__check_range b l r s); [|discriminate].
  destruct (negb _).
  - destruct (__check_range b (__simplify_integer_part l) r s); [|discriminate].
    injection H as <-. reflexivity.
  - injection H as <-. reflexivity.
Qed.

(** X4: negation of a valid value always returns; it flips the sign and
    keeps the base, the digits and the remainder; the result is valid
    again, and negating it gives the value back. *)
Theorem neg_involutive (v : t) :
  valid v ->
  let w := mk (base v) (left v) (right v) (remainder v) (- sign v) in
  __neg__ v = Ok w /\ valid w /\ __neg__ w = Ok v.
Proof.
  intros Hv w.
  pose proof (new_opp _ _ _ _ _ _ Hv) as Hw. fold w in Hw.
  split; [exact Hw|]. split; [exact Hw|].
  unfold __neg__. pose proof (new_opp _ _ _ _ _ _ Hw) as Hv'.
  simpl in Hv' |- *. rewrite Hv', Z.opp_involutive. destruct v; reflexivity.
Qed.

Lemma neg_involutive_witness :
  __neg__ one_two_three
  = Ok (mk RadixBase.sexagesimal [1; 2; 3] [4; 5; 6] 0.25%float 1)
  /\ __neg__ (mk RadixBase.sexagesimal [1; 2; 3] [4; 5; 6] 0.25%float 1)
     = Ok one_two_three.
Proof.
  assert (Hv : valid one_two_three) by (vm_compute; reflexivity).
  destruct (neg_involutive one_two_three Hv) as (H1 & _ & H2).
  split; [exact H1 | exact H2].
Defined.

(** X5: the absolute value of a valid value always returns, has the sign
    +1 and the base, digits and remainder of the value, and is its own
    absolute value. *)
Theorem abs_idempotent (v : t) :
  valid v ->
  let w := mk (base v) (left v) (right v) (remainder v) 1 in
  __abs__ v = Ok w /\ __abs__ w = Ok w.
Proof.
  intros Hv w. split; [|reflexivity].
  unfold __abs__. destruct (valid_sign v Hv) as [Hs | Hs]; rewrite Hs; simpl.
  - subst w. rewrite <- Hs. destruct v; reflexivity.
  - unfold __neg__. rewrite (new_opp _ _ _ _ _ _ Hv), Hs. reflexivity.
Qed.

Lemma abs_idempotent_witness :
  __abs__ one_two_three
  = Ok (mk RadixBase.sexagesimal [1; 2; 3] [4; 5; 6] 0.25%float 1).
Proof.
  assert (Hv : valid one_two_three) by (vm_compute; reflexivity).
  exact (proj1 (abs_idempotent one_two_three Hv)).
Defined.

(** ** Values read from floats *)

Lemma fractional_positions_length (n : nat) (b : RadixBase.t) (i : Z)
    (floa factor : float) (ds : list Z) (rest : float * float) :
  fractional_positions n b i floa factor = Ok (ds, rest) ->
  List.length ds = n.
Proof.
  revert i floa factor ds rest.
  induction n as [|n IH]; intros i floa factor ds rest H; simpl in H.
  - injection H as <- _. reflexivity.
  - bind_split H.
    match goal with
    | E : fractional_positions _ _ _ _ _ = Ok ?p |- _ =>
        destruct p as [ds' rest']; injection H as <- _;
        simpl; f_equal; exact (IH _ _ _ _ _ E)
    end.
Qed.

Lemma np_sign_sign (x : float) (sg : Z) :
  np_sign x = Ok sg ->
  (if sg =? 0 then 1 else sg) = (if (x <? 0)%float then -1 else 1).
Proof.
  unfold np_sign. intros Hsg.
  destruct (is_nan x); [discriminate|].
  destruct (x <? 0)%float; [injection Hsg as <-; reflexivity|].
  destruct (0 <? x)%float; injection Hsg as <-; reflexivity.
Qed.

Lemma from_float_fields (cls : RadixBase.t) (x : float) (s : Z) (v : t) :
  from_float cls x s = Ok v ->
  base v = cls
  /\ len (right v) = Z.max 0 s
  /\ sign v = (if (x <? 0)%float then -1 else 1)
  /\ normal (left v).
Proof.
  unfold from_float. intros H.
  destruct (np_sign x) as [sg|] eqn:Hsg; [|discriminate]. simpl in H.
  bind_split H.
  pose proof (new_left _ _ _ _ _ _ H) as Hl.
  apply new_fields in H. destruct H as (Hb & Hr & _ & Hs).
  split; [exact Hb|]. split.
  - rewrite Hr.
    match goal with
    | E : fractional_positions _ _ _ _ _ = Ok ?p |- _ =>
        destruct p as [ds rest]; apply fractional_positions_length in E;
        unfold len; simpl; lia
    end.
  - split; [|rewrite Hl; apply canon_normal].
    rewrite Hs. exact (np_sign_sign x sg Hsg).
Qed.

(** X6: a value read from a float, by [from_float] or by [to_base], is
    bound to the class it was asked of, has exactly the requested number
    of fractional digits (none for a negative request), and has the sign
    -1 for a negative float and +1 otherwise: zero is given the sign +1,
    never a sign 0. *)
Theorem from_float_shape (cls : RadixBase.t) (x : float) (s : Z) (v : t) :
  (from_float cls x s = Ok v ->
   base v = cls
   /\ len (right v) = Z.max 0 s
   /\ sign v = (if (x <? 0)%float then -1 else 1)
   /\ (left v = [0] \/ hd 0 (left v) <> 0))
  /\ (forall self, to_base self cls s = Ok v ->
                   base v = cls /\ len (right v) = Z.max 0 s).
Proof.
  split.
  - exact (from_float_fields cls x s v).
  - intros self H. unfold to_base in H. bind_split H.
    apply from_float_fields in H. tauto.
Qed.

Lemma from_float_shape_witness :
  from_float RadixBase.sexagesimal (-0.5)%float 2
  = Ok (mk RadixBase.sexagesimal [0] [30; 0] 0%float (-1))
  /\ len (right (mk RadixBase.sexagesimal [0] [30; 0] 0%float (-1))) = Z.max 0 2.
Proof.
  assert (H : from_float RadixBase.sexagesimal (-0.5)%float 2
              = Ok (mk RadixBase.sexagesimal [0] [30; 0] 0%float (-1)))
    by (vm_compute; reflexivity).
  split; [exact H|].
  exact (proj1 (proj2 (proj1 (from_float_shape _ _ _ _) H))).
Defined.

(** ** Precision, again *)

Lemma len_app {A : Type} (l1 l2 : list A) : len (l1 ++ l2) = len l1 + len l2.
Proof. unfold len. rewrite length_app. lia. Qed.

Lemma len_nonneg {A : Type} (l : list A) : 0 <= len l.
Proof. unfold len. lia. Qed.

Lemma len_firstn {A : Type} (l : list A) (n : Z) :
  0 <= n <= len l -> len (firstn (Z.to_nat n) l) = n.
Proof. unfold len. intros H. rewrite length_firstn. lia. Qed.

Lemma len_skipn {A : Type} (l : list A) (n : Z) :
  0 <= n <= len l -> len (skipn (Z.to_nat n) l) = len l - n.
Proof. unfold len. intros H. rewrite length_skipn. lia. Qed.

Lemma resize_fields (v : t) (s : Z) (r : t) :
  resize v s = Ok r ->
  0 <= s
  /\ base r = base v
  /\ sign r = sign v
  /\ len (right r) = s
  /\ firstn (Z.to_nat (Z.min s (len (right v)))) (right r)
     = firstn (Z.to_nat (Z.min s (len (right v)))) (right v)
  /\ (normal (left v) -> left r = left v).
Proof.
  unfold resize. intros H. pose proof (len_nonneg (right v)) as Hlen.
  destruct (s =? len (right v)) eqn:Hs.
  - apply Z.eqb_eq in Hs. injection H as <-. repeat split; auto; lia.
  - apply Z.eqb_neq in Hs.
    destruct (RadixBase.float_at_pos (base v) (len (right v))) as [factor|];
      [|discriminate]. simpl in H.
    destruct (s >? len (right v)) eqn:Hgt.
    + apply Z.gtb_lt in Hgt. bind_split H.
      match goal with
      | E : from_float _ _ _ = Ok _ |- _ =>
          apply from_float_fields in E; destruct E as (_ & Hr0 & _)
      end.
      pose proof (new_left _ _ _ _ _ _ H) as Hl.
      apply new_fields in H. destruct H as (Hb & Hr & _ & Hsg).
      split; [lia|]. split; [exact Hb|]. split; [exact Hsg|].
      rewrite Hr, slice_suffix by lia. split.
      * rewrite len_app, len_skipn by lia. lia.
      * split; [|intros Hn; rewrite Hl; apply canon_fixed, Hn].
        rewrite Z.min_r by lia. unfold len. rewrite Nat2Z.id.
        rewrite firstn_app, Nat.sub_diag. simpl.
        rewrite app_nil_r. reflexivity.
    + rewrite Z.gtb_ltb in Hgt. apply Z.ltb_ge in Hgt.
      destruct (s >=? 0) eqn:Hpos; [|discriminate].
      rewrite Z.geb_leb in Hpos. apply Z.leb_le in Hpos. bind_split H.
      pose proof (new_left _ _ _ _ _ _ H) as Hl.
      apply new_fields in H. destruct H as (Hb & Hr & _ & Hsg).
      split; [lia|]. split; [exact Hb|]. split; [exact Hsg|].
      rewrite Hr, slice_prefix by lia. split.
      * apply len_firstn. lia.
      * split; [|intros Hn; rewrite Hl; apply canon_fixed, Hn].
        rewrite Z.min_l by lia. rewrite firstn_firstn, Nat.min_id. reflexivity.
Qed.

(** X7: when [resize] returns, the requested significance is not negative
    and the result has exactly that many fractional digits, the base and
    the sign of the value, and the fractional digits of the value up to
    the shorter of the two lengths; for a valid value the integer digits
    are kept too.  A negative significance never returns a value. *)
Theorem resize_shape (v : t) (s : Z) (r : t) :
  valid v ->
  resize v s = Ok r ->
  0 <= s
  /\ base r = base v
  /\ sign r = sign v
  /\ left r = left v
  /\ len (right r) = s
  /\ firstn (Z.to_nat (Z.min s (len (right v)))) (right r)
     = firstn (Z.to_nat (Z.min s (len (right v)))) (right v).
Proof.
  intros Hv H. apply resize_fields in H.
  destruct H as (H0 & Hb & Hs & Hlen & Hpre & Hl).
  repeat split; auto. apply Hl, valid_normal, Hv.
Qed.

Lemma resize_shape_witness :
  resize (mk RadixBase.sexagesimal [1; 2; 3] [4; 30] 0%float (-1)) 1
  = Ok (mk RadixBase.sexagesimal [1; 2; 3] [4] 0.5%float (-1))
  /\ len (right (mk RadixBase.sexagesimal [1; 2; 3] [4] 0.5%float (-1))) = 1.
Proof.
  assert (Hv : valid (mk RadixBase.sexagesimal [1; 2; 3] [4; 30] 0%float (-1)))
    by (vm_compute; reflexivity).
  assert (H : resize (mk RadixBase.sexagesimal [1; 2; 3] [4; 30] 0%float (-1)) 1
              = Ok (mk RadixBase.sexagesimal [1; 2; 3] [4] 0.5%float (-1)))
    by (vm_compute; reflexivity).
  split; [exact H|].
  destruct (resize_shape _ _ _ Hv H) as (_ & _ & _ & _ & Hlen & _).
  exact Hlen.
Defined.

(** ** Addition, again *)

Lemma add_at_length (array : list Z) (i : nat) (v : Z) (array' : list Z) :
  add_at array i v = Ok array' -> List.length array' = List.length array.
Proof.
  revert i array'. induction array as [|x t IH]; intros i array' H.
  - destruct i; discriminate.
  - destruct i as [|j]; simpl in H.
    + injection H as <-. reflexivity.
    + destruct (add_at t j v) as [t'|] eqn:E; [|discriminate].
      injection H as <-. simpl. f_equal. exact (IH _ _ E).
Qed.

Lemma set_at_length (array : list Z) (i : nat) (v : Z) (array' : list Z) :
  set_at array i v = Ok array' -> List.length array' = List.length array.
Proof.
  revert i array'. induction array as [|x t IH]; intros i array' H.
  - destruct i; discriminate.
  - destruct i as [|j]; simpl in H.
    + injection H as <-. reflexivity.
    + destruct (set_at t j v) as [t'|] eqn:E; [|discriminate].
      injection H as <-. simpl. f_equal. exact (IH _ _ E).
Qed.

Lemma add_loop_length (b : RadixBase.t) (maxright : Z) (to_add : list Z)
    (i : nat) (array array' : list Z) :
  add_loop b maxright to_add i array = Ok array' ->
  List.length array' = List.length array.
Proof.
  revert i array array'.
  induction to_add as [|r to_add IH]; intros i array array' H; simpl in H.
  - injection H as <-. reflexivity.
  - destruct (add_at array i r) as [a1|] eqn:E1; [|discriminate]. simpl in H.
    destruct (RadixBase.__getitem__ b (maxright - Z.of_nat i)) as [factor|];
      [|discriminate]. simpl in H.
    destruct (get_at a1 i) as [n|]; [|discriminate]. simpl in H.
    apply add_at_length in E1.
    destruct ((n <? 0) || (n >=? factor)).
    + destruct (py_mod n factor) as [m|]; [|discriminate]. simpl in H.
      destruct (set_at a1 i m) as [a2|] eqn:E2; [|discriminate]. simpl in H.
      destruct (add_at a2 (S i) (if n >? 0 then 1 else -1)) as [a3|] eqn:E3;
        [|discriminate]. simpl in H.
      apply set_at_length in E2. apply add_at_length in E3.
      apply IH in H. congruence.
    + simpl in H. apply IH in H. congruence.
Qed.

Lemma add_len (b : RadixBase.t) (maxright n : Z) (array : list Z) (values : t)
    (array' : list Z) :
  add b maxright n array values = Ok array' -> len array' = len array.
Proof.
  unfold add, len. intros H. apply add_loop_length in H. congruence.
Qed.

Lemma maybe_neg_fields (c : bool) (v w : t) :
  (if c then __neg__ v else Ok v) = Ok w ->
  normal (left v) ->
  base w = base v /\ left w = left v /\ right w = right v.
Proof.
  intros H Hn. destruct c.
  - unfold __neg__ in H. pose proof (new_left_normal _ _ _ _ _ _ H Hn) as Hl.
    apply new_fields in H. tauto.
  - injection H as <-. auto.
Qed.

Lemma add_same_type_fields (self other r : t) :
  add_same_type self other = Ok r ->
  normal (left self) -> normal (left other) ->
  base r = base self
  /\ len (right r) = Z.max (len (right self)) (len (right other))
  /\ (sign r = sign self \/ sign r = sign other).
Proof.
  unfold add_same_type. intros H Hs Ho.
  set (m := Z.max (len (right self)) (len (right other))) in *.
  set (ml := Z.max (len (left self)) (len (left other))) in *.
  cbv beta zeta in H.
  destruct (resize self m) as [va|] eqn:Eva; [|discriminate H].
  change (bind (Ok va) ?k) with (k va) in H. cbv beta zeta in H.
  destruct (resize other m) as [vb|] eqn:Evb; [|discriminate H].
  change (bind (Ok vb) ?k) with (k vb) in H. cbv beta zeta in H.
  apply resize_fields in Eva. destruct Eva as (_ & _ & Hsa & Hra & _ & Hla).
  apply resize_fields in Evb. destruct Evb as (_ & _ & Hsb & Hrb & _ & Hlb).
  specialize (Hla Hs). specialize (Hlb Ho).
  destruct (__abs__ va) as [abs_a|]; [|discriminate H].
  change (bind (Ok abs_a) ?k) with (k abs_a) in H. cbv beta zeta in H.
  destruct (__abs__ vb) as [abs_b|]; [|discriminate H].
  change (bind (Ok abs_b) ?k) with (k abs_b) in H. cbv beta zeta in H.
  destruct (__gt__ abs_a (Based abs_b)) as [gt|]; [|discriminate H].
  change (bind (Ok gt) ?k) with (k gt) in H. cbv beta zeta in H.
  set (sg := if gt then sign va else sign vb) in *.
  destruct (if sg <? 0 then __neg__ va else Ok va) as [va'|] eqn:Eva';
    [|discriminate H].
  change (bind (Ok va') ?k) with (k va') in H. cbv beta zeta in H.
  destruct (if sg <? 0 then __neg__ vb else Ok vb) as [vb'|] eqn:Evb';
    [|discriminate H].
  change (bind (Ok vb') ?k) with (k vb') in H. cbv beta zeta in H.
  apply maybe_neg_fields in Eva'; [|rewrite Hla; exact Hs].
  apply maybe_neg_fields in Evb'; [|rewrite Hlb; exact Ho].
  destruct Eva' as (_ & Hla' & Hra'). destruct Evb' as (_ & Hlb' & Hrb').
  bind_split H.
  repeat match goal with
  | E : add _ _ _ _ _ = Ok _ |- _ => apply add_len in E
  end.
  apply new_fields in H. destruct H as (Hb & Hr & _ & Hsg).
  split; [exact Hb|]. split.
  - rewrite Hr, slice_suffix by (unfold ml; pose proof (len_nonneg (left self)); lia).
    unfold len at 1. rewrite length_skipn, length_map, length_rev.
    match goal with
    | E1 : len ?x = len ?y, E2 : len ?y = len ?z |- context [List.length ?x] =>
        assert (Hlen : len x = len z) by congruence; clear E1 E2
    end.
    rewrite len_app in Hlen. unfold repeat_tuple, digits in Hlen.
    rewrite !len_app, Hla', Hra', Hlb', Hrb', Hla, Hlb, Hra, Hrb in Hlen.
    pose proof (len_nonneg (left self)). pose proof (len_nonneg (left other)).
    pose proof (len_nonneg (right self)). pose proof (len_nonneg (right other)).
    unfold len in Hlen at 1 2 3. rewrite repeat_length in Hlen.
    simpl in Hlen. unfold ml. lia.
  - rewrite Hsg. unfold sg. destruct gt; [left; exact Hsa | right; exact Hsb].
Qed.

Lemma same_type_base (self other : t) :
  same_type self other = true <-> base self = base other.
Proof. unfold same_type. apply bool_decide_eq_true. Qed.

(** X8: when a sum is returned it is bound to the base of the left
    operand.  Between valid values of one class it has as many fractional
    digits as the longer operand and the sign of one of the operands; with
    an operand of another class, or a plain float, it has the fractional
    digits count of the left operand. *)
Theorem add_shape (self other : t) (x : float) :
  valid self -> valid other ->
  (forall r, __add__ self (Based other) = Ok r ->
             base r = base self
             /\ len (right r)
                = (if same_type self other
                   then Z.max (len (right self)) (len (right other))
                   else len (right self))
             /\ (same_type self other = true ->
                 sign r = sign self \/ sign r = sign other))
  /\ (forall r, __add__ self (Float x) = Ok r ->
                base r = base self /\ len (right r) = len (right self)).
Proof.
  intros Hs Ho.
  assert (Hconv : forall y c r,
             from_float (base self) y (len (right self)) = Ok c ->
             add_same_type self c = Ok r ->
             base r = base self /\ len (right r) = len (right self)).
  { intros y c r Hc Hr. apply from_float_fields in Hc.
    destruct Hc as (_ & Hlen & _ & Hn).
    apply add_same_type_fields in Hr; [|apply valid_normal, Hs|exact Hn].
    destruct Hr as (Hb & Hl & _). split; [exact Hb|].
    pose proof (len_nonneg (right self)). lia. }
  split.
  - intros r H. unfold __add__ in H. destruct (same_type self other) eqn:Hst.
    + apply add_same_type_fields in H; try (apply valid_normal; assumption).
      destruct H as (Hb & Hl & Hsg). auto.
    + bind_split H.
      match goal with
      | E : from_float _ _ _ = Ok _ |- _ => destruct (Hconv _ _ _ E H) as (Hb & Hl)
      end.
      split; [exact Hb|]. split; [exact Hl|discriminate].
  - intros r H. unfold __add__ in H. bind_split H.
    match goal with
    | E : from_float _ _ _ = Ok _ |- _ => exact (Hconv _ _ _ E H)
    end.
Qed.

Lemma add_shape_witness :
  __add__ one_two_three (Based one_sexagesimal)
  = Ok (mk RadixBase.sexagesimal [1; 2; 2] [4; 5; 6] 0.25%float (-1))
  /\ len (right (mk RadixBase.sexagesimal [1; 2; 2] [4; 5; 6] 0.25%float (-1)))
     = Z.max 3 0.
Proof.
  assert (Hs : valid one_two_three) by (vm_compute; reflexivity).
  assert (Ho : valid one_sexagesimal) by (vm_compute; reflexivity).
  assert (H : __add__ one_two_three (Based one_sexagesimal)
              = Ok (mk RadixBase.sexagesimal [1; 2; 2] [4; 5; 6] 0.25%float (-1)))
    by (vm_compute; reflexivity).
  split; [exact H|].
  exact (proj1 (proj2 (proj1 (add_shape _ _ 0%float Hs Ho) _ H))).
Defined.

(** ** Shifting and rounding, again *)

Lemma shift_fields (v : t) (i : Z) (r : t) :
  shift v i = Ok r ->
  normal (left v) ->
  len (right r) = len (right v) + Z.max 0 i /\ normal (left r).
Proof.
  unfold shift. intros H Hn.
  pose proof (len_nonneg (left v)) as Hl. pose proof (len_nonneg (right v)) as Hr.
  destruct (i =? 0) eqn:Hi.
  - apply Z.eqb_eq in Hi. injection H as <-. split; [lia|exact Hn].
  - apply Z.eqb_neq in Hi.
    pose proof (new_left _ _ _ _ _ _ H) as Hleft.
    apply new_fields in H. destruct H as (_ & Hright & _).
    split; [|rewrite Hleft; apply canon_normal].
    rewrite Hright.
    assert (Htot : len (repeat_tuple 0 i ++ digits v ++ repeat_tuple 0 (- i))
                   = Z.max 0 i + (len (left v) + len (right v)) + Z.max 0 (- i)).
    { rewrite !len_app. unfold digits. rewrite len_app.
      unfold repeat_tuple, len. rewrite !repeat_length. lia. }
    destruct (i >? 0) eqn:Hpos.
    + apply Z.gtb_lt in Hpos.
      destruct (- i >? len (left v)) eqn:Hm; [apply Z.gtb_lt in Hm; lia|].
      rewrite slice_suffix, len_skipn by lia. lia.
    + rewrite Z.gtb_ltb in Hpos. apply Z.ltb_ge in Hpos.
      destruct (- i >? len (left v) - i) eqn:Hm; [apply Z.gtb_lt in Hm; lia|].
      rewrite slice_suffix, len_skipn by lia. lia.
Qed.

Lemma shift_keeps (v : t) (i : Z) (r : t) :
  shift v i = Ok r -> sign r = sign v /\ base r = base v.
Proof.
  unfold shift. destruct (i =? 0).
  - intros H. injection H as <-. auto.
  - intros H. apply new_fields in H. tauto.
Qed.

(** X9: [shift(i)] of a valid value adds [i] fractional digits for a
    positive [i] and keeps their number for a negative [i], whenever it
    returns; its integer digits are in constructor form again. *)
Theorem shift_significance (v : t) (i : Z) (r : t) :
  valid v ->
  shift v i = Ok r ->
  len (right r) = len (right v) + Z.max 0 i
  /\ (left r = [0] \/ hd 0 (left r) <> 0).
Proof.
  intros Hv H. exact (shift_fields v i r H (valid_normal v Hv)).
Qed.

Lemma shift_significance_witness :
  shift one_sexagesimal 4
  = Ok (mk RadixBase.sexagesimal [0] [0; 0; 0; 1] 0%float 1)
  /\ len (right (mk RadixBase.sexagesimal [0] [0; 0; 0; 1] 0%float 1))
     = len (right one_sexagesimal) + Z.max 0 4.
Proof.
  assert (Hv : valid one_sexagesimal) by (vm_compute; reflexivity).
  assert (H : shift one_sexagesimal 4
              = Ok (mk RadixBase.sexagesimal [0] [0; 0; 0; 1] 0%float 1))
    by (vm_compute; reflexivity).
  split; [exact H|].
  exact (proj1 (shift_significance _ _ _ Hv H)).
Defined.

(** X10: when [round] returns, the result has exactly the requested number
    of fractional digits (the current number when none is requested), a
    remainder of 0, and the sign and the base of the value. *)
Theorem round_shape (v : t) (significant : option Z) (r : t) :
  valid v ->
  __round__ v significant = Ok r ->
  len (right r)
  = (match significant with Some s => s | None => len (right v) end)
  /\ remainder r = 0%float
  /\ sign r = sign v
  /\ base r = base v.
Proof.
  intros Hv H. unfold __round__ in H.
  set (n := match significant with Some s => s | None => len (right v) end) in *.
  cbv beta zeta in H.
  destruct (resize v n) as [n1|] eqn:E1; [|discriminate H].
  change (bind (Ok n1) ?k) with (k n1) in H. cbv beta zeta in H.
  apply resize_fields in E1.
  destruct E1 as (Hn & Hb1 & Hs1 & Hr1 & _ & Hl1).
  specialize (Hl1 (valid_normal v Hv)).
  assert (Hsum : exists n2, truncate n2 n = Ok r
                            /\ len (right n2) = n /\ sign n2 = sign v
                            /\ base n2 = base v).
  { destruct (fge (remainder n1) 0.5%float).
    - destruct (new (base v) [1] [] 0%float (sign v)) as [u|] eqn:Eu;
        [|discriminate H].
      change (bind (Ok u) ?k) with (k u) in H. cbv beta zeta in H.
      destruct (shift u n) as [u'|] eqn:Eu'; [|discriminate H].
      change (bind (Ok u') ?k) with (k u') in H. cbv beta zeta in H.
      destruct (__add__ n1 (Based u')) as [x|] eqn:Ex; [|discriminate H].
      change (bind (Ok x) ?k) with (k x) in H. cbv beta zeta in H.
      pose proof (new_left _ _ _ _ _ _ Eu) as Hlu.
      apply new_fields in Eu. destruct Eu as (Hbu & Hru & _ & Hsu).
      destruct (shift_keeps _ _ _ Eu') as (Hsu' & Hbu').
      apply shift_fields in Eu'; [|rewrite Hlu; apply canon_normal].
      destruct Eu' as (Hru' & Hnu').
      unfold __add__ in Ex.
      assert (Hst : same_type n1 u' = true) by (apply same_type_base; congruence).
      rewrite Hst in Ex.
      apply add_same_type_fields in Ex;
        [|rewrite Hl1; apply valid_normal, Hv|exact Hnu'].
      destruct Ex as (Hbx & Hrx & Hsx).
      exists x. split; [exact H|].
      rewrite Hru in Hru'. unfold len in Hru' at 2. simpl in Hru'.
      repeat split; [lia | destruct Hsx; congruence | congruence].
    - change (bind (Ok n1) ?k) with (k n1) in H. cbv beta in H.
      exists n1. repeat split; assumption. }
  destruct Hsum as (n2 & Ht & Hr2 & Hs2 & Hb2).
  unfold truncate in Ht.
  destruct (n >? len (right n2)) eqn:Hgt; [apply Z.gtb_lt in Hgt; lia|].
  apply new_fields in Ht. destruct Ht as (Hb & Hr & Hrem & Hs).
  rewrite Hr, slice_prefix by lia.
  split; [apply len_firstn; lia|]. split; [exact Hrem|].
  split; congruence.
Qed.

Lemma round_shape_witness :
  __round__ (mk RadixBase.sexagesimal [59] [59; 59; 59; 30] 0%float (-1)) (Some 3)
  = Ok (mk RadixBase.sexagesimal [1; 0] [0; 0; 0] 0%float (-1))
  /\ len (right (mk RadixBase.sexagesimal [1; 0] [0; 0; 0] 0%float (-1))) = 3.
Proof.
  assert (Hv : valid (mk RadixBase.sexagesimal [59] [59; 59; 59; 30] 0%float (-1)))
    by (vm_compute; reflexivity).
  assert (H : __round__ (mk RadixBase.sexagesimal [59] [59; 59; 59; 30] 0%float (-1))
                (Some 3)
              = Ok (mk RadixBase.sexagesimal [1; 0] [0; 0; 0] 0%float (-1)))
    by (vm_compute; reflexivity).
  split; [exact H|].
  exact (proj1 (round_shape _ _ _ Hv H)).
Defined.

(** ** Multiplication, again *)

Lemma add_same_type_normal (self other r : t) :
  add_same_type self other = Ok r -> normal (left r).
Proof.
  unfold add_same_type. intros H. bind_split H.
  rewrite (new_left _ _ _ _ _ _ H). apply canon_normal.
Qed.

Lemma add_float_fields (self : t) (x : float) (r : t) :
  __add__ self (Float x) = Ok r ->
  normal (left self) ->
  base r = base self /\ len (right r) = len (right self) /\ normal (left r).
Proof.
  unfold __add__. intros H Hn. bind_split H.
  match goal with
  | E : from_float _ _ _ = Ok _ |- _ =>
      apply from_float_fields in E; destruct E as (_ & Hlen & _ & Hnc)
  end.
  pose proof (add_same_type_normal _ _ _ H) as Hnr.
  apply add_same_type_fields in H; [|exact Hn|exact Hnc].
  destruct H as (Hb & Hl & _).
  pose proof (len_nonneg (right self)). repeat split; [exact Hb|lia|exact Hnr].
Qed.

Lemma mul_same_type_fields (self other r : t) :
  mul_same_type self other = Ok r ->
  base r = base self
  /\ len (right r) = 2 * Z.max (len (right self)) (len (right other)).
Proof.
  intros H. unfold mul_same_type, significant in H.
  set (m := Z.max (len (right self)) (len (right other))) in *.
  assert (Hm : 0 <= m) by (pose proof (len_nonneg (right self)); lia).
  bind_split H.
  match goal with
  | E : new _ (rev _) [] _ _ = Ok ?res0, E' : shift ?res0 _ = Ok ?res1,
    E'' : __add__ ?res1 _ = Ok ?res2 |- _ =>
      pose proof (new_left _ _ _ _ _ _ E) as Hl0;
      apply new_fields in E; destruct E as (Hb0 & Hr0 & _);
      destruct (shift_keeps _ _ _ E') as (_ & Hb1);
      apply shift_fields in E'; [|rewrite Hl0; apply canon_normal];
      destruct E' as (Hr1 & Hn1);
      apply add_float_fields in E''; [|exact Hn1];
      destruct E'' as (Hb2 & Hr2 & Hn2);
      apply maybe_neg_fields in H; [|exact Hn2];
      destruct H as (Hb & _ & Hr);
      rewrite Hr0 in Hr1; unfold len in Hr1 at 2; simpl in Hr1;
      split; [congruence|]; rewrite Hr, Hr2, Hr1; lia
  end.
Qed.

(** X11: a product that is returned is bound to the base of the left
    operand.  Between values of one class it has twice as many fractional
    digits as the longer operand; with a plain float it has twice as many
    as the left operand. *)
Theorem mul_shape (self other : t) (x : float) (r : t) :
  (same_type self other = true ->
   __mul__ self (Based other) = Ok r ->
   base r = base self
   /\ len (right r) = 2 * Z.max (len (right self)) (len (right other)))
  /\ (__mul__ self (Float x) = Ok r ->
      base r = base self /\ len (right r) = 2 * len (right self)).
Proof.
  split.
  - intros Hst H. unfold __mul__ in H. rewrite Hst in H.
    exact (mul_same_type_fields _ _ _ H).
  - intros H. unfold __mul__ in H. bind_split H.
    match goal with
    | E : from_float _ _ _ = Ok _ |- _ =>
        apply from_float_fields in E; destruct E as (_ & Hlen & _)
    end.
    apply mul_same_type_fields in H. destruct H as (Hb & Hl).
    split; [exact Hb|]. unfold significant in Hlen.
    pose proof (len_nonneg (right self)). lia.
Qed.

Lemma mul_shape_witness :
  __mul__ (mk RadixBase.sexagesimal [1; 12] [4; 17] 0%float 1)
    (Based (mk RadixBase.sexagesimal [7] [45; 55] 0%float 1))
  = Ok (mk RadixBase.sexagesimal [9; 19] [39; 15; 40; 35] 0%float 1)
  /\ len (right (mk RadixBase.sexagesimal [9; 19] [39; 15; 40; 35] 0%float 1))
     = 2 * Z.max 2 2.
Proof.
  assert (Hst : same_type (mk RadixBase.sexagesimal [1; 12] [4; 17] 0%float 1)
                  (mk RadixBase.sexagesimal [7] [45; 55] 0%float 1) = true)
    by (vm_compute; reflexivity).
  assert (H : __mul__ (mk RadixBase.sexagesimal [1; 12] [4; 17] 0%float 1)
                (Based (mk RadixBase.sexagesimal [7] [45; 55] 0%float 1))
              = Ok (mk RadixBase.sexagesimal [9; 19] [39; 15; 40; 35] 0%float 1))
    by (vm_compute; reflexivity).
  split; [exact H|].
  exact (proj2 (proj1 (mul_shape _ _ 0%float _) Hst H)).
Defined.

(** ** Trimming zeros *)

Lemma trim_head_self (l : list Z) : trim_head l l = __simplify_integer_part l.
Proof.
  induction l as [|d l IH]; [reflexivity|].
  destruct d; simpl; auto.
Qed.

Lemma trim_tail_rev (walk : list Z) (offset : Z) :
  trim_tail walk (rev walk) offset
  = (rev (__simplify_integer_part walk),
     offset - (len walk - len (__simplify_integer_part walk))).
Proof.
  revert offset. induction walk as [|d walk IH]; intros offset.
  - simpl. f_equal. unfold len. simpl. lia.
  - destruct d; simpl;
      try (f_equal; unfold len; simpl; lia).
    rewrite removelast_last, IH. f_equal. unfold len. simpl List.length. lia.
Qed.

Lemma repeat_snoc {A : Type} (x : A) (n : nat) :
  repeat x n ++ [x] = x :: repeat x n.
Proof. induction n as [|n IH]; simpl; [reflexivity|]. rewrite IH. reflexivity. Qed.

Lemma rev_repeat_same {A : Type} (x : A) (n : nat) : rev (repeat x n) = repeat x n.
Proof.
  induction n as [|n IH]; simpl; [reflexivity|].
  rewrite IH. apply repeat_snoc.
Qed.

Lemma last_rev_hd {A : Type} (l : list A) (d : A) : last (rev l) d = hd d l.
Proof.
  destruct l as [|x l]; [reflexivity|]. simpl. apply last_last.
Qed.

(** X12: [trim_zeros] removes exactly the leading zeros of the first tuple
    and the trailing zeros of the second, and the offset it returns is
    minus the number of zeros removed from the second: the first result
    does not start with a zero, the second does not end with one, and
    putting the zeros back gives the two tuples. *)
Theorem trim_zeros_spec (left right : list Z) :
  exists (k m : nat),
    left = repeat 0 k ++ fst (fst (trim_zeros left right))
    /\ right = snd (fst (trim_zeros left right)) ++ repeat 0 m
    /\ snd (trim_zeros left right) = - Z.of_nat m
    /\ hd 1 (fst (fst (trim_zeros left right))) <> 0
    /\ last (snd (fst (trim_zeros left right))) 1 <> 0.
Proof.
  unfold trim_zeros. cbv zeta. rewrite trim_head_self.
  pose proof (trim_tail_rev (rev right) 0) as Ht.
  rewrite rev_involutive in Ht. rewrite Ht. cbn [fst snd].
  destruct (simplify_integer_part_head left) as (k & Hk & Hh).
  destruct (simplify_integer_part_head (rev right)) as (m & Hm & Hl).
  exists k, m. split; [exact Hk|]. split; [|split; [|split; [exact Hh|]]].
  - rewrite <- (rev_involutive right) at 1. rewrite Hm at 1.
    rewrite rev_app_distr, rev_repeat_same. reflexivity.
  - rewrite Hm at 1. rewrite len_app. unfold len at 1.
    rewrite repeat_length. lia.
  - rewrite last_rev_hd. exact Hl.
Qed.

Lemma trim_zeros_right (left right : list Z) :
  last (snd (fst (trim_zeros left right))) 1 <> 0
  /\ len (snd (fst (trim_zeros left right))) <= len right.
Proof.
  unfold trim_zeros. cbv zeta.
  pose proof (trim_tail_rev (rev right) 0) as Ht.
  rewrite rev_involutive in Ht. rewrite Ht. cbn [fst snd].
  destruct (simplify_integer_part_head (rev right)) as (m & _ & Hl).
  split.
  - rewrite last_rev_hd. exact Hl.
  - unfold len. rewrite length_rev.
    pose proof (simplify_integer_part_length (rev right)) as Hlen.
    rewrite length_rev in Hlen. lia.
Qed.

(** ** Values read from fractions *)

(** X13: [from_fraction] returns a value of the class it was asked of, with
    the remainder it was handed (the one [from_float] computed is
    dropped).  With a non-zero significance the value has that many
    fractional digits; with none, or with 0, it has at most 100 and the
    last of them is not a zero. *)
Theorem from_fraction_shape (cls : RadixBase.t) (numerator denominator : Z)
    (remainder : float) (significant : option Z) (v : t) :
  from_fraction cls numerator denominator remainder significant = Ok v ->
  base v = cls
  /\ BasedReal.remainder v = remainder
  /\ match significant with
     | Some 0 | None => len (right v) <= 100 /\ last (right v) 1 <> 0
     | Some s => len (right v) = Z.max 0 s
     end.
Proof.
  intros H. unfold from_fraction in H. bind_split H.
  match goal with
  | E : from_float _ _ _ = Ok ?res |- _ =>
      apply from_float_fields in E; destruct E as (_ & Hlen & _)
  end.
  apply new_fields in H. destruct H as (Hb & Hr & Hrem & _).
  split; [exact Hb|]. split; [exact Hrem|].
  match type of Hr with
  | right v = (if _ then _ else snd (fst (trim_zeros ?l ?r))) =>
      destruct (trim_zeros_right l r) as (Hlast & Hle)
  end.
  destruct significant as [s|].
  - destruct (Z.eqb_spec s 0) as [-> | Hs].
    + simpl in Hr, Hlen, Hlast, Hle. rewrite Hr. split; [lia|exact Hlast].
    + simpl in Hr. rewrite Hr.
      destruct s; [contradiction | exact Hlen | exact Hlen].
  - simpl in Hr, Hlen, Hlast, Hle. rewrite Hr. split; [lia|exact Hlast].
Qed.

Lemma from_fraction_shape_witness :
  from_fraction RadixBase.sexagesimal 1 3 0%float None
  = Ok (mk RadixBase.sexagesimal [0] [20] 0%float 1)
  /\ last (right (mk RadixBase.sexagesimal [0] [20] 0%float 1)) 1 <> 0.
Proof.
  assert (H : from_fraction RadixBase.sexagesimal 1 3 0%float None
              = Ok (mk RadixBase.sexagesimal [0] [20] 0%float 1))
    by (vm_compute; reflexivity).
  split; [exact H|].
  exact (proj2 (proj2 (proj2 (from_fraction_shape _ _ _ _ None _ H)))).
Defined.

(** ** Indexing *)

Lemma get_at_nth (l : list Z) (i : nat) :
  (i < List.length l)%nat -> get_at l i = Ok (nth i l 0).
Proof.
  intros H. unfold get_at.
  rewrite (nth_error_nth' l 0 H). reflexivity.
Qed.

Lemma firstn_1_skipn {A : Type} (l : list A) (i : nat) (d : A) :
  (i < List.length l)%nat -> firstn 1 (skipn i l) = [nth i l d].
Proof.
  revert i. induction l as [|x l IH]; intros i H; simpl in H; [lia|].
  destruct i as [|i]; [reflexivity|]. simpl. apply IH. lia.
Qed.

(** X14: [v[p]] returns a digit exactly for the positions
    [-len(left) < p <= len(right)] and raises [IndexError] for every other
    one.  The digit is the element of [left + right] at the offset
    [p + len(left) - 1], and the slice [v[p:p+1]] holds that one digit. *)
Theorem getitem_spec (v : t) (p : Z) :
  (- len (left v) < p <= len (right v) ->
   __getitem__ v p = Ok (nth (Z.to_nat (p + len (left v) - 1)) (digits v) 0)
   /\ getitem_slice v (Some p) (Some (p + 1))
      = [nth (Z.to_nat (p + len (left v) - 1)) (digits v) 0])
  /\ (p <= - len (left v) \/ len (right v) < p ->
      __getitem__ v p = Raise IndexError).
Proof.
  unfold __getitem__. split.
  - intros Hp. split.
    + destruct (Z.leb_spec p 0) as [Hle | Hgt].
      * replace (- len (left v) <? p) with true by (symmetry; apply Z.ltb_lt; lia).
        simpl. unfold digits, len in *.
        rewrite get_at_nth by lia. rewrite app_nth1 by lia.
        do 2 f_equal. lia.
      * replace (p <=? len (right v)) with true by (symmetry; apply Z.leb_le; lia).
        replace (p >? 0) with true by (symmetry; apply Z.gtb_lt; lia).
        rewrite andb_false_r. simpl. unfold digits, len in *.
        rewrite get_at_nth by lia. rewrite app_nth2 by lia.
        do 2 f_equal. lia.
    + unfold getitem_slice, slice, clamp, digits. simpl.
      pose proof (len_nonneg (left v)). pose proof (len_nonneg (right v)).
      pose proof (len_app (left v) (right v)) as Happ.
      destruct (p + len (left v) - 1 <? 0) eqn:H1; [apply Z.ltb_lt in H1; lia|].
      destruct (p + 1 + len (left v) - 1 <? 0) eqn:H2; [apply Z.ltb_lt in H2; lia|].
      rewrite Z.min_r, Z.max_r by lia. rewrite Z.min_r, Z.max_r by lia.
      replace (Z.to_nat (p + 1 + len (left v) - 1) - Z.to_nat (p + len (left v) - 1))%nat
        with 1%nat by lia.
      apply firstn_1_skipn. unfold len in *. lia.
  - intros Hp.
    destruct (Z.ltb_spec (- len (left v)) p) as [H1 | H1];
      destruct (Z.leb_spec p 0) as [H2 | H2]; simpl;
      destruct (Z.leb_spec p (len (right v))) as [H3 | H3];
      destruct (Z.gtb_spec p 0) as [H4 | H4]; simpl;
      try reflexivity; pose proof (len_nonneg (left v));
      pose proof (len_nonneg (right v)); lia.
Qed.

Lemma getitem_spec_witness :
  __getitem__ one_two_three (-1) = Ok 2
  /\ getitem_slice one_two_three (Some (-1)) (Some 0) = [2]
  /\ __getitem__ one_two_three 4 = Raise IndexError.
Proof.
  assert (Hin : - len (left one_two_three) < -1 <= len (right one_two_three))
    by (vm_compute; split; [reflexivity | discriminate]).
  assert (Hout : 4 <= - len (left one_two_three)
                 \/ len (right one_two_three) < 4)
    by (right; vm_compute; reflexivity).
  destruct (proj1 (getitem_spec one_two_three (-1)) Hin) as (H1 & H2).
  split; [exact H1|]. split; [exact H2|].
  exact (proj2 (getitem_spec one_two_three 4) Hout).
Defined.

(** ** Equality and order *)

(** X15: a value compares equal to itself exactly when its remainder is not
    a NaN; then [>=] holds of it and itself, and [<] and [!=] do not. *)
Theorem eq_reflexive (v : t) :
  __eq__ v (Based v) = Ok (negb (is_nan (remainder v)))
  /\ (is_nan (remainder v) = false ->
      __ge__ v (Based v) = Ok true
      /\ __lt__ v (Based v) = Ok false
      /\ __ne__ v (Based v) = Ok false).
Proof.
  assert (H : __eq__ v (Based v) = Ok (negb (is_nan (remainder v)))).
  { unfold __eq__, same_type.
    rewrite !bool_decide_eq_true_2 by reflexivity.
    rewrite !Z.eqb_refl. simpl.
    unfold is_nan. rewrite negb_involutive. reflexivity. }
  split; [exact H|]. intros Hn.
  unfold __lt__, __ge__, __ne__. rewrite H, Hn. repeat split.
Qed.

Lemma eq_reflexive_witness :
  __eq__ one_two_three (Based one_two_three) = Ok true
  /\ __lt__ one_two_three (Based one_two_three) = Ok false.
Proof.
  assert (Hn : is_nan (remainder one_two_three) = false)
    by (vm_compute; reflexivity).
  destruct (eq_reflexive one_two_three) as (H & Hrest).
  destruct (Hrest Hn) as (_ & Hlt & _).
  split; [|exact Hlt].
  rewrite H, Hn. reflexivity.
Defined.

(** ** Errors of [from_string] *)

Lemma split_char_length (c : ascii) (s : string) :
  List.length (PyStr.split_char c s) = S (count_char c s).
Proof.
  induction s as [|x r IH]; [reflexivity|]. simpl.
  destruct (Ascii.eqb x c); simpl; [rewrite IH; reflexivity|].
  destruct (PyStr.split_char c r); simpl in *; [discriminate|exact IH].
Qed.

Lemma count_rev_onto (c : ascii) (s acc : string) :
  count_char c (PyStr.rev_onto s acc) = (count_char c s + count_char c acc)%nat.
Proof.
  revert acc. induction s as [|x r IH]; intros acc; [reflexivity|].
  simpl. rewrite IH. simpl. lia.
Qed.

Lemma count_reverse (c : ascii) (s : string) :
  count_char c (PyStr.reverse s) = count_char c s.
Proof. unfold PyStr.reverse. rewrite count_rev_onto. simpl. lia. Qed.

Lemma count_lstrip (c : ascii) (s : string) :
  PyStr.is_space c = false ->
  count_char c (PyStr.lstrip s) = count_char c s.
Proof.
  intros Hc. induction s as [|x r IH]; [reflexivity|]. simpl.
  destruct (PyStr.is_space x) eqn:Hx; [|reflexivity].
  rewrite IH. destruct (Ascii.eqb_spec x c) as [-> | _]; [congruence|reflexivity].
Qed.

Lemma count_strip (c : ascii) (s : string) :
  PyStr.is_space c = false ->
  count_char c (PyStr.strip s) = count_char c s.
Proof.
  intros Hc. unfold PyStr.strip.
  rewrite count_reverse, count_lstrip, count_reverse, count_lstrip by exact Hc.
  reflexivity.
Qed.

Lemma lower_char_semicolon (x : ascii) :
  Ascii.eqb (PyStr.lower_char x) ";" = Ascii.eqb x ";".
Proof. destruct x as [[] [] [] [] [] [] [] []]; reflexivity. Qed.

Lemma count_lower_semicolon (s : string) :
  count_char ";" (PyStr.lower s) = count_char ";" s.
Proof.
  induction s as [|x r IH]; [reflexivity|].
  unfold PyStr.lower in *. simpl. rewrite lower_char_semicolon, IH. reflexivity.
Qed.

Lemma count_after_sign (s : string) :
  count_char ";"
    (snd (match s with
          | String "-" r => (-1, r)
          | _ => (1, s)
          end))
  = count_char ";" s.
Proof.
  destruct s as [|x r]; [reflexivity|].
  destruct x as [[] [] [] [] [] [] [] []]; reflexivity.
Qed.

(** X16: for every base but [decimal], [from_string] raises
    [EmptyStringException] on a string that holds only blanks, and
    [TooManySeparators] on every string that holds two [;] or more,
    whatever stands around them. *)
Theorem from_string_errors (float_of_string : string -> result float)
    (cls : RadixBase.t) (s : string) :
  RadixBase.name cls <> "decimal"%string ->
  (PyStr.strip s = ""%string ->
   from_string float_of_string cls s = Raise EmptyStringException)
  /\ ((2 <= count_char ";" s)%nat ->
      from_string float_of_string cls s = Raise TooManySeparators).
Proof.
  intros Hname. apply String.eqb_neq in Hname.
  unfold from_string. rewrite Hname. split.
  - intros ->. reflexivity.
  - intros Hc.
    assert (Hc1 : count_char ";" (PyStr.lower (PyStr.strip s)) = count_char ";" s)
      by (rewrite count_lower_semicolon; apply count_strip; reflexivity).
    set (s1 := PyStr.lower (PyStr.strip s)) in *.
    assert (Hlen : (PyStr.slen s1 =? 0) = false).
    { destruct s1; [simpl in Hc1; lia|]. reflexivity. }
    rewrite Hlen.
    pose proof (count_after_sign s1) as Hsign.
    destruct (match s1 with String "-" r => (-1, r) | _ => (1, s1) end)
      as [sg str].
    simpl in Hsign.
    pose proof (split_char_length ";" str) as Hsplit.
    destruct (PyStr.split_char ";" str) as [|a [|b [|c l]]];
      simpl in Hsplit; try lia.
    reflexivity.
Qed.

Lemma from_string_errors_witness :
  from_string (fun _ => Raise ValueError) RadixBase.sexagesimal "   "
  = Raise EmptyStringException
  /\ from_string (fun _ => Raise ValueError) RadixBase.sexagesimal "1;x;"
     = Raise TooManySeparators.
Proof.
  assert (Hname : RadixBase.name RadixBase.sexagesimal <> "decimal"%string)
    by (vm_compute; discriminate).
  assert (Hblank : PyStr.strip "   " = ""%string) by (vm_compute; reflexivity).
  assert (Hcount : (2 <= count_char ";" "1;x;")%nat) by (vm_compute; lia).
  split.
  - exact (proj1 (from_string_errors _ _ "   " Hname) Hblank).
  - exact (proj2 (from_string_errors _ _ "1;x;" Hname) Hcount).
Defined.

(** ** The registry, again *)

(** X17: a registration touches one entry of each table: every other name
    keeps its base and every other class name its class.  When no
    separators are given there is one per integer radix, the empty string
    for the radix 10 and a comma for every other radix. *)
Theorem init_frame (left right : list Z) (name : string)
    (seps : option (list string)) (st st' : RadixBase.registry)
    (self : RadixBase.t) :
  RadixBase.__init__ left right name seps st = Ok (self, st') ->
  (forall n, n <> name ->
             RadixBase.name_to_base st' !! n = RadixBase.name_to_base st !! n)
  /\ (forall tn, tn <> RadixBase.type_name name ->
                 RadixBase.module_types st' !! tn = RadixBase.module_types st !! tn)
  /\ (seps = None ->
      List.length (RadixBase.integer_separators self) = List.length left
      /\ forall (k : nat) (radix : Z),
           nth_error left k = Some radix ->
           nth_error (RadixBase.integer_separators self) k
           = Some (if radix =? 10 then ""%string else ","%string)).
Proof.
  unfold RadixBase.__init__. intros H. injection H as <- <-. simpl.
  split; [intros n Hn; apply lookup_insert_ne; congruence|].
  split; [intros tn Htn; apply lookup_insert_ne; congruence|].
  intros ->. split; [apply length_map|].
  intros k radix Hk. rewrite nth_error_map, Hk. reflexivity.
Qed.

Lemma init_frame_witness :
  exists self st',
    RadixBase.__init__ [10; 12; 30] [60] "mixed" None RadixBase.empty_registry
    = Ok (self, st')
    /\ RadixBase.name_to_base st' !! "decimal"%string = None
    /\ nth_error (RadixBase.integer_separators self) 0 = Some ""%string.
Proof.
  assert (H : exists self st',
             RadixBase.__init__ [10; 12; 30] [60] "mixed" None
               RadixBase.empty_registry = Ok (self, st'))
    by (unfold RadixBase.__init__; eexists _, _; reflexivity).
  destruct H as (self & st' & H). exists self, st'. split; [exact H|].
  destruct (init_frame _ _ _ _ _ _ _ H) as (Hn & _ & Hs).
  split.
  - rewrite Hn by discriminate. reflexivity.
  - exact (proj2 (Hs eq_refl) 0%nat 10 eq_refl).
Defined.

(** ** Multiplication factors *)

Lemma product_raises (b : RadixBase.t) (n : nat) (k acc : Z) (e : exn) :
  RadixBase.product b n k acc = Raise e -> e = ZeroDivisionError.
Proof.
  revert k acc. induction n as [|n IH]; intros k acc H; simpl in H.
  - discriminate.
  - destruct (RadixBase.__getitem__ b k) as [r|e'] eqn:Hr; simpl in H.
    + exact (IH _ _ H).
    + injection H as <-.
      unfold RadixBase.__getitem__, LoopingList.__getitem__ in Hr.
      destruct (k <=? 0);
        [destruct (RadixBase.left b) | destruct (RadixBase.right b)];
        congruence.
Qed.

(** X18: [mul_factor] is symmetric in its two positions, errors included. *)
Theorem mul_factor_symmetric (b : RadixBase.t) (i j : Z) :
  RadixBase.mul_factor b i j = RadixBase.mul_factor b j i.
Proof.
  unfold RadixBase.mul_factor. rewrite (Z.add_comm j i).
  destruct (RadixBase.product b (Z.to_nat (i + j)) 1 1) as [numerator|];
    [|reflexivity]. simpl.
  destruct (RadixBase.product b (Z.to_nat i) 1 1) as [di|ei] eqn:Hi;
    destruct (RadixBase.product b (Z.to_nat j) 1 1) as [dj|ej] eqn:Hj;
    simpl; try reflexivity.
  - rewrite (Z.mul_comm dj di). reflexivity.
  - apply product_raises in Hi. apply product_raises in Hj. congruence.
Qed.

Lemma product_uniform (b : RadixBase.t) (r : Z) (n : nat) (k acc : Z) :
  RadixBase.right b = [r] -> 1 <= k ->
  RadixBase.product b n k acc = Ok (acc * r ^ Z.of_nat n).
Proof.
  intros Hb. revert k acc. induction n as [|n IH]; intros k acc Hk.
  - simpl. rewrite Z.mul_1_r. reflexivity.
  - cbn [RadixBase.product].
    unfold RadixBase.__getitem__, LoopingList.__getitem__.
    destruct (k <=? 0) eqn:Hle; [apply Z.leb_le in Hle; lia|].
    rewrite Hb. unfold len. simpl List.length. rewrite Z.mod_1_r. simpl nth.
    simpl bind. rewrite IH by lia. f_equal.
    rewrite Nat2Z.inj_succ, Z.pow_succ_r by lia. ring.
Qed.

(** X19: in a base whose fractional radices are all one non-zero radix,
    [mul_factor] is the integer 1 at all non-negative positions. *)
Theorem mul_factor_uniform (b : RadixBase.t) (r i j : Z) :
  RadixBase.right b = [r] -> r <> 0 -> 0 <= i -> 0 <= j ->
  RadixBase.mul_factor b i j = Ok (RadixBase.IntVal 1).
Proof.
  intros Hb Hr Hi Hj. unfold RadixBase.mul_factor.
  rewrite !(product_uniform b r) by (auto; lia). simpl bind.
  rewrite !Z.mul_1_l, !Z2Nat.id by lia.
  rewrite <- Z.pow_add_r by lia.
  assert (Hp : r ^ (i + j) <> 0) by (apply Z.pow_nonzero; lia).
  unfold py_mod, py_floordiv.
  destruct (r ^ (i + j) =? 0) eqn:Hz; [apply Z.eqb_eq in Hz; contradiction|].
  simpl. rewrite Z_mod_same_full. simpl. rewrite Z_div_same_full by exact Hp.
  reflexivity.
Qed.

Lemma mul_factor_uniform_witness :
  RadixBase.mul_factor RadixBase.sexagesimal 2 3 = Ok (RadixBase.IntVal 1).
Proof.
  assert (Hb : RadixBase.right RadixBase.sexagesimal = [60]) by reflexivity.
  assert (Hr : 60 <> 0) by lia.
  assert (Hi : 0 <= 2) by lia.
  assert (Hj : 0 <= 3) by lia.
  exact (mul_factor_uniform RadixBase.sexagesimal 60 2 3 Hb Hr Hi Hj).
Defined.

(** ** Integral parts and powers *)

(** X20: of [__floor__] and [__ceil__] one is the constant 0 and the other
    is the truncation plus one, at every valid value: with the sign +1 the
    floor is 0 whatever the digits are, with the sign -1 the ceiling is. *)
Theorem floor_ceil_spec (v : t) (n : Z) :
  valid v ->
  __trunc__ v = Ok n ->
  (sign v = 1 /\ __floor__ v = Ok 0 /\ __ceil__ v = Ok (n + 1))
  \/ (sign v = -1 /\ __floor__ v = Ok (n + 1) /\ __ceil__ v = Ok 0).
Proof.
  intros Hv Ht. unfold __floor__, __ceil__. rewrite Ht.
  destruct (valid_sign v Hv) as [Hs | Hs]; rewrite Hs; simpl; auto.
Qed.

Lemma floor_ceil_spec_witness :
  __floor__ (mk RadixBase.sexagesimal [5] [30] 0%float 1) = Ok 0
  /\ __ceil__ (mk RadixBase.sexagesimal [5] [30] 0%float 1) = Ok 6.
Proof.
  assert (Hv : valid (mk RadixBase.sexagesimal [5] [30] 0%float 1))
    by (vm_compute; reflexivity).
  assert (Ht : __trunc__ (mk RadixBase.sexagesimal [5] [30] 0%float 1) = Ok 5)
    by (vm_compute; reflexivity).
  destruct (floor_ceil_spec _ _ Hv Ht) as [(_ & Hf & Hc) | (Hs & _)].
  - split; [exact Hf | exact Hc].
  - discriminate Hs.
Defined.

(** X21: [__pow__] returns a value for the exponent 0 only, and that value
    is [one(0)]: a positive exponent gives [None] or an exception of the
    multiplications, a negative one [NotImplementedError]. *)
Theorem pow_returns_only_for_zero (v : t) (exponent : Z) :
  (exponent = 0 ->
   __pow__ v exponent = (let* r := one (base v) 0 in Ok (Some r)))
  /\ (0 < exponent -> forall r, __pow__ v exponent <> Ok (Some r))
  /\ (exponent < 0 -> __pow__ v exponent = Raise NotImplementedError).
Proof.
  unfold __pow__. split; [intros ->; reflexivity|]. split.
  - intros He r. destruct (exponent =? 0) eqn:Hz; [apply Z.eqb_eq in Hz; lia|].
    destruct (exponent >? 0) eqn:Hp;
      [|rewrite Z.gtb_ltb in Hp; apply Z.ltb_ge in Hp; lia].
    destruct (pow_loop (Z.to_nat (exponent - 1)) v v); simpl; discriminate.
  - intros He. destruct (exponent =? 0) eqn:Hz; [apply Z.eqb_eq in Hz; lia|].
    destruct (exponent >? 0) eqn:Hp; [apply Z.gtb_lt in Hp; lia|reflexivity].
Qed.

Lemma pow_returns_only_for_zero_witness :
  __pow__ one_two_three (-2) = Raise NotImplementedError
  /\ __pow__ one_two_three 3 <> Ok (Some one_two_three).
Proof.
  assert (Hneg : -2 < 0) by lia.
  assert (Hpos : 0 < 3) by lia.
  split.
  - exact (proj2 (proj2 (pow_returns_only_for_zero one_two_three (-2))) Hneg).
  - exact (proj1 (proj2 (pow_returns_only_for_zero one_two_three 3)) Hpos
             one_two_three).
Defined.

(** ** Exact conversion of fractional positions *)

Lemma looping_getitem (l : list Z) (i : Z) :
  l <> [] -> LoopingList.__getitem__ l i = Ok (periodic l i).
Proof.
  intros Hl. unfold LoopingList.__getitem__, periodic.
  destruct l as [|x l']; [contradiction|]. f_equal. apply nth_indep.
  unfold len. pose proof (Z.mod_pos_bound i (Z.of_nat (List.length (x :: l')))).
  simpl List.length in *. lia.
Qed.

Lemma radices_succ (l : list Z) (i : Z) (n : nat) :
  radices l i (S n) = periodic l i :: radices l (i + 1) n.
Proof.
  unfold radices. simpl. rewrite Z.add_0_r. f_equal.
  rewrite <- seq_shift, map_map. apply map_ext. intros k.
  f_equal. lia.
Qed.

Lemma denominator_loop_value (b : RadixBase.t) (n : nat) (i denom : Z) :
  RadixBase.right b <> [] ->
  denominator_loop b n i denom
  = Ok (denom * weight (radices (RadixBase.right b) i n)).
Proof.
  intros Hb. revert i denom. induction n as [|n IH]; intros i denom.
  - simpl. unfold weight. simpl. rewrite Z.mul_1_r. reflexivity.
  - cbn [denominator_loop]. rewrite looping_getitem by exact Hb.
    simpl bind. rewrite IH, radices_succ. f_equal.
    unfold weight. simpl. ring.
Qed.

(** The loop from a state in which [rem] is [num], as it is after every
    round. *)
Lemma conversion_loop_exact (b : RadixBase.t) (n : nat) (i num denom : Z)
    (ds : list Z) (rem : Z) :
  RadixBase.right b <> [] ->
  0 < denom ->
  conversion_loop b n i num denom num = Ok (ds, rem) ->
  let rs := radices (RadixBase.right b) i n in
  List.length ds = n
  /\ num * weight rs = mixed_value rs ds * denom + rem
  /\ (0 <= num < denom -> 0 <= rem < denom)
  /\ (0 <= num < denom -> Forall (fun r => 0 < r) rs ->
      Forall2 (fun d r => 0 <= d < r) ds rs).
Proof.
  intros Hb Hd. revert i num ds rem.
  induction n as [|n IH]; intros i num ds rem H.
  - simpl in H. injection H as <- <-. simpl. unfold weight. simpl.
    repeat split; try lia. intros _ _. constructor.
  - cbn [conversion_loop] in H. rewrite looping_getitem in H by exact Hb.
    simpl bind in H. unfold py_floordiv, py_mod in H.
    destruct (denom =? 0) eqn:Hz; [apply Z.eqb_eq in Hz; lia|]. simpl bind in H.
    set (r := periodic (RadixBase.right b) i) in *.
    destruct (conversion_loop b n (i + 1) ((num * r) mod denom) denom
                ((num * r) mod denom)) as [[ds' rem']|] eqn:E; [|discriminate].
    simpl in H. injection H as <- <-.
    destruct (IH _ _ _ _ E) as (Hlen & Hex & Hrem & Hdig).
    rewrite radices_succ. fold r.
    set (rs' := radices (RadixBase.right b) (i + 1) n) in *.
    pose proof (Z.mod_pos_bound (num * r) denom Hd) as Hmod.
    pose proof (Z.div_mod (num * r) denom ltac:(lia)) as Hdm.
    split; [simpl; f_equal; exact Hlen|]. split; [|split].
    + cbn [mixed_value]. unfold weight at 1. cbn [fold_right]. fold (weight rs').
      replace (num * (r * weight rs')) with (num * r * weight rs') by ring.
      rewrite Hdm at 1.
      rewrite Z.mul_add_distr_r, Hex. ring.
    + intros _. apply Hrem. exact Hmod.
    + intros Hnum Hrs. inversion Hrs as [|? ? Hr Hrs']; subst.
      constructor; [|apply Hdig; [exact Hmod|exact Hrs']].
      split; [apply Z.div_pos; nia|].
      apply Z.div_lt_upper_bound; [lia|nia].
Qed.

(** X22: [__fractionnal_position_base_to_base] is exact.  With [denom] the
    product of the first [pos + 1] fractional radices of [base1] and [rs]
    the first [significant] fractional radices of [base2], the digits it
    returns denote, in the radices [rs], the integer part of
    [value * (product of rs) / denom]: the expansion of [value / denom]
    cut after [significant] positions.  The value returned has the
    integer part 0, the sign +1 and [significant] fractional digits, and
    when [0 <= value < denom] and the radices are positive every digit is
    below its radix. *)
Theorem fractional_conversion_exact (value pos : Z) (base1 base2 : RadixBase.t)
    (significant : Z) (v : t) :
  RadixBase.right base1 <> [] ->
  RadixBase.right base2 <> [] ->
  let denom := weight (radices (RadixBase.right base1) 0 (Z.to_nat (pos + 1))) in
  let rs := radices (RadixBase.right base2) 0 (Z.to_nat significant) in
  0 < denom ->
  0 < significant ->
  __fractionnal_position_base_to_base value pos base1 base2 significant = Ok v ->
  base v = base2
  /\ left v = [0]
  /\ sign v = 1
  /\ len (right v) = significant
  /\ mixed_value rs (right v) = value * weight rs / denom
  /\ (0 <= value < denom -> Forall (fun r => 0 < r) rs ->
      Forall2 (fun d r => 0 <= d < r) (right v) rs).
Proof.
  intros H1 H2 denom rs Hd Hs H.
  unfold __fractionnal_position_base_to_base in H.
  rewrite denominator_loop_value in H by exact H1.
  rewrite Z.mul_1_l in H. fold denom in H. simpl bind in H.
  destruct (Z.to_nat significant) as [|n] eqn:Hn; [lia|].
  cbn [conversion_loop] in H. rewrite looping_getitem in H by exact H2.
  simpl bind in H. unfold py_floordiv at 1, py_mod at 1 in H.
  destruct (denom =? 0) eqn:Hz; [apply Z.eqb_eq in Hz; lia|]. simpl bind in H.
  set (r := periodic (RadixBase.right base2) 0) in *.
  destruct (conversion_loop base2 n (0 + 1) ((value * r) mod denom) denom
              ((value * r) mod denom)) as [[ds' rem']|] eqn:E; [|discriminate].
  simpl in H. bind_split H.
  pose proof (new_left _ _ _ _ _ _ H) as Hl.
  apply new_fields in H. destruct H as (Hb & Hr & _ & Hsg).
  destruct (conversion_loop_exact _ _ _ _ _ _ _ H2 Hd E)
    as (Hlen & Hex & Hrem & Hdig).
  pose proof (Z.mod_pos_bound (value * r) denom Hd) as Hmod.
  pose proof (Z.div_mod (value * r) denom ltac:(lia)) as Hdm.
  unfold rs. rewrite radices_succ. fold r.
  set (rs' := radices (RadixBase.right base2) (0 + 1) n) in *.
  split; [exact Hb|]. split; [exact Hl|]. split; [exact Hsg|]. rewrite Hr.
  split; [unfold len; simpl; lia|]. split.
  - cbn [mixed_value]. unfold weight at 2. cbn [fold_right]. fold (weight rs').
    apply Z.div_unique with (r := rem'); [left; apply Hrem; exact Hmod|].
    replace (value * (r * weight rs')) with (value * r * weight rs') by ring.
    rewrite Hdm at 1. rewrite Z.mul_add_distr_r, Hex. ring.
  - intros Hv Hrs. inversion Hrs as [|? ? Hr0 Hrs']; subst.
    constructor; [|apply Hdig; [exact Hmod|exact Hrs']].
    split; [apply Z.div_pos; nia|].
    apply Z.div_lt_upper_bound; [lia|nia].
Qed.

Lemma fractional_conversion_exact_witness :
  __fractionnal_position_base_to_base 30 0 RadixBase.sexagesimal
    RadixBase.decimal 3
  = Ok (mk RadixBase.decimal [0] [5; 0; 0] 0%float 1)
  /\ mixed_value [10; 10; 10] [5; 0; 0] = 30 * 1000 / 60.
Proof.
  assert (H1 : RadixBase.right RadixBase.sexagesimal <> []) by discriminate.
  assert (H2 : RadixBase.right RadixBase.decimal <> []) by discriminate.
  assert (Hd : 0 < weight (radices (RadixBase.right RadixBase.sexagesimal) 0
                             (Z.to_nat (0 + 1))))
    by (vm_compute; reflexivity).
  assert (Hs : 0 < 3) by lia.
  assert (H : __fractionnal_position_base_to_base 30 0 RadixBase.sexagesimal
                RadixBase.decimal 3
              = Ok (mk RadixBase.decimal [0] [5; 0; 0] 0%float 1))
    by (vm_compute; reflexivity).
  split; [exact H|].
  exact (proj1 (proj2 (proj2 (proj2 (proj2
           (fractional_conversion_exact _ _ _ _ _ _ H1 H2 Hd Hs H)))))).
Defined.

(** ** Order and equality between two values *)

Lemma SFcompare_antisym (x y : spec_float) :
  SFcompare y x = option_map CompOpp (SFcompare x y).
Proof.
  destruct x as [sx|sx| |sx mx ex], y as [sy|sy| |sy my ey];
    try destruct sx; try destruct sy; simpl; try reflexivity;
    rewrite (Z.compare_antisym ex ey);
    destruct (ex ?= ey)%Z; simpl; try reflexivity;
    rewrite !Pos.compare_cont_spec; simpl;
    rewrite (Pos.compare_antisym mx my);
    destruct (mx ?= my)%positive; reflexivity.
Qed.

Lemma float_eqb_sym (x y : float) : (x =? y)%float = (y =? x)%float.
Proof.
  rewrite !eqb_spec. unfold SFeqb.
  rewrite (SFcompare_antisym (Prim2SF x) (Prim2SF y)).
  destruct (SFcompare (Prim2SF x) (Prim2SF y)) as [[]|]; reflexivity.
Qed.

Lemma float_ltb_asym (x y : float) :
  (x <? y)%float = true -> (y <? x)%float = false.
Proof.
  rewrite !ltb_spec. unfold SFltb.
  rewrite (SFcompare_antisym (Prim2SF x) (Prim2SF y)).
  destruct (SFcompare (Prim2SF x) (Prim2SF y)) as [[]|]; simpl; congruence.
Qed.

(** X23: between two values whose float projections are defined, [==] is
    symmetric and [>] is asymmetric: [a == b] and [b == a] agree, and
    [a > b] and [b > a] never both hold. *)
Theorem eq_symmetric_gt_asymmetric (a b : t) (x y : float) :
  __float__ a = Ok x ->
  __float__ b = Ok y ->
  __eq__ a (Based b) = __eq__ b (Based a)
  /\ (__gt__ a (Based b) = Ok true -> __gt__ b (Based a) = Ok false).
Proof.
  intros Ha Hb. split.
  - unfold __eq__, same_type. rewrite Ha, Hb. simpl.
    rewrite (float_eqb_sym x y).
    rewrite (Z.eqb_sym (len (right a))), (Z.eqb_sym (sign a)).
    rewrite (float_eqb_sym (remainder a)).
    rewrite (bool_decide_ext (base a = base b) (base b = base a))
      by (split; congruence).
    rewrite (bool_decide_ext (right a = right b) (right b = right a))
      by (split; congruence).
    rewrite (bool_decide_ext (left a = left b) (left b = left a))
      by (split; congruence).
    reflexivity.
  - unfold __gt__, float_of_number, fgt. rewrite Ha, Hb. simpl.
    intros H. injection H as H. rewrite (float_ltb_asym _ _ H). reflexivity.
Qed.

Lemma eq_symmetric_gt_asymmetric_witness :
  __eq__ one_sexagesimal (Based one_two_three)
  = __eq__ one_two_three (Based one_sexagesimal)
  /\ __gt__ one_two_three (Based one_sexagesimal) = Ok false.
Proof.
  assert (Ha : __float__ one_sexagesimal = Ok 1%float) by (vm_compute; reflexivity).
  assert (Hb : exists y, __float__ one_two_three = Ok y)
    by (eexists; vm_compute; reflexivity).
  destruct Hb as (y & Hb).
  assert (Hgt : __gt__ one_sexagesimal (Based one_two_three) = Ok true)
    by (vm_compute; reflexivity).
  destruct (eq_symmetric_gt_asymmetric _ _ _ _ Ha Hb) as (He & Hg).
  split; [exact He | exact (Hg Hgt)].
Defined.

(** ** Truncation, again *)

(** X24: truncations compose.  For a valid value and [0 <= m <= n], the
    value truncated to [n] positions is valid again, and truncating it to
    [m] positions gives what truncating the value itself to [m] positions
    gives; in particular truncating twice to [n] changes nothing more. *)
Theorem truncate_compose (v w : t) (m n : Z) :
  valid v ->
  0 <= m <= n ->
  truncate v n = Ok w ->
  valid w /\ truncate w m = truncate v m /\ truncate w n = Ok w.
Proof.
  intros Hv Hmn H. unfold truncate in H.
  destruct (n >? len (right v)) eqn:Hgt.
  - injection H as <-. split; [exact Hv|]. split; [reflexivity|].
    unfold truncate. rewrite Hgt. reflexivity.
  - rewrite Z.gtb_ltb in Hgt. apply Z.ltb_ge in Hgt.
    rewrite slice_prefix in H by lia.
    rewrite (new_frame _ _ _ _ _ _ _ _ Hv) in H. injection H as <-.
    assert (Hw : valid (mk (base v) (left v) (firstn (Z.to_nat n) (right v))
                          0%float (sign v)))
      by exact (new_frame _ _ _ _ _ _ _ _ Hv).
    assert (Hlen : len (firstn (Z.to_nat n) (right v)) = n)
      by (apply len_firstn; lia).
    split; [exact Hw|]. unfold truncate. simpl. rewrite Hlen.
    destruct (m >? n) eqn:Hm; [apply Z.gtb_lt in Hm; lia|].
    destruct (m >? len (right v)) eqn:Hm'; [apply Z.gtb_lt in Hm'; lia|].
    destruct (n >? n) eqn:Hn; [apply Z.gtb_lt in Hn; lia|].
    rewrite !slice_prefix by lia.
    rewrite !firstn_firstn, Nat.min_id.
    replace (Init.Nat.min (Z.to_nat m) (Z.to_nat n)) with (Z.to_nat m) by lia.
    split; [reflexivity|].
    exact (new_frame _ _ _ _ _ _ _ _ Hv).
Qed.

Lemma truncate_compose_witness :
  truncate one_two_three 2
  = Ok (mk RadixBase.sexagesimal [1; 2; 3] [4; 5] 0%float (-1))
  /\ truncate (mk RadixBase.sexagesimal [1; 2; 3] [4; 5] 0%float (-1)) 1
     = truncate one_two_three 1.
Proof.
  assert (Hv : valid one_two_three) by (vm_compute; reflexivity).
  assert (Hmn : 0 <= 1 <= 2) by lia.
  assert (H : truncate one_two_three 2
              = Ok (mk RadixBase.sexagesimal [1; 2; 3] [4; 5] 0%float (-1)))
    by (vm_compute; reflexivity).
  split; [exact H|].
  exact (proj1 (proj2 (truncate_compose _ _ _ _ Hv Hmn H))).
Defined.

(** ** Rounding, counted in units *)

(** *** The carry read from the remainders *)

(** Multiplying a mantissa by a power of two and shifting it back loses
    nothing. *)
Lemma digits2_pos_shift (m : positive) (k : nat) :
  Z.pos (digits2_pos (Nat.iter k xO m)) = Z.pos (digits2_pos m) + Z.of_nat k.
Proof.
  induction k as [|k IH]; [simpl; lia|].
  change (Nat.iter (S k) xO m) with (xO (Nat.iter k xO m)).
  simpl digits2_pos. lia.
Qed.

Lemma shr_exact (m : positive) (k : nat) :
  Nat.iter k shr_1 (Build_shr_record (Z.pos (Nat.iter k xO m)) false false)
  = Build_shr_record (Z.pos m) false false.
Proof.
  induction k as [|k IH]; [reflexivity|].
  rewrite Nat.iter_succ_r.
  change (Nat.iter (S k) xO m) with (xO (Nat.iter k xO m)).
  simpl shr_1. exact IH.
Qed.

Lemma iter_pos_nat {A : Type} (f : A -> A) (p : positive) (x : A) :
  iter_pos f p x = Nat.iter (Pos.to_nat p) f x.
Proof.
  revert x. induction p as [p IH|p IH|]; intros x; cbn [iter_pos].
  - rewrite !IH, Pos2Nat.inj_xI.
    replace (S (2 * Pos.to_nat p)) with (Pos.to_nat p + S (Pos.to_nat p))%nat by lia.
    rewrite Nat.iter_add, Nat.iter_succ_r. reflexivity.
  - rewrite !IH, Pos2Nat.inj_xO.
    replace (2 * Pos.to_nat p)%nat with (Pos.to_nat p + Pos.to_nat p)%nat by lia.
    rewrite Nat.iter_add. reflexivity.
  - reflexivity.
Qed.

(** [x * 1.0] is [x], for every binary64 [x]. *)
Lemma fmul_one (x : float) : (x * 1)%float = x.
Proof.
  apply Prim2SF_inj. rewrite mul_spec.
  change (Prim2SF 1) with (S754_finite false 4503599627370496 (-52)).
  pose proof (Prim2SF_valid x) as Hv.
  destruct (Prim2SF x) as [s|s| |s m e];
    try (destruct s; reflexivity); try reflexivity.
  unfold valid_binary, SpecFloat.valid_binary, bounded, canonical_mantissa in Hv.
  apply andb_true_iff in Hv. destruct Hv as [Hc He].
  apply Z.eqb_eq in Hc. apply Z.leb_le in He.
  unfold SF64mul, SFmul, binary_round_aux.
  replace (m * 4503599627370496)%positive with (Nat.iter 52 xO m)
    by (rewrite Pos.mul_comm; reflexivity).
  unfold shr_fexp at 1. unfold Zdigits2.
  rewrite digits2_pos_shift.
  replace (Z.pos (digits2_pos m) + Z.of_nat 52 + (e + -52))
    with (Z.pos (digits2_pos m) + e) by lia.
  rewrite Hc.
  replace (e - (e + -52)) with 52 by lia.
  unfold shr. rewrite iter_pos_nat.
  change (Pos.to_nat 52) with 52%nat.
  unfold shr_record_of_loc. rewrite shr_exact.
  unfold shr_m at 1, loc_of_shr_record, round_nearest_even.
  replace (e + -52 + 52) with e by lia.
  unfold shr_fexp, Zdigits2. rewrite Hc, Z.sub_diag. simpl.
  apply Z.leb_le in He. rewrite He. destruct s; reflexivity.
Qed.

Lemma fmul_int_one (x : float) : fmul_int x 1 = Ok x.
Proof.
  unfold fmul_int. change (float_of_int 1) with (Ok 1%float).
  cbn [bind]. rewrite fmul_one. reflexivity.
Qed.

(** Adding [0.0] changes at most the sign of a zero, which [int] does not
    see. *)
Lemma int_of_float_add_zero (x : float) :
  int_of_float (x + 0)%float = int_of_float x.
Proof.
  unfold int_of_float. rewrite add_spec.
  change (Prim2SF 0) with (S754_zero false).
  destruct (Prim2SF x) as [s|s| |s m e]; try reflexivity.
  destruct s; reflexivity.
Qed.

(** The whole part of a float that is at least a half is not negative. *)
Lemma int_of_float_half (x : float) (c : Z) :
  fge x 0.5%float = true -> int_of_float x = Ok c -> 0 <= c.
Proof.
  unfold fge, int_of_float. rewrite leb_spec.
  change (Prim2SF 0.5) with (S754_finite false 4503599627370496 (-53)).
  destruct (Prim2SF x) as [s|s| |s m e]; try discriminate.
  destruct s; [discriminate|].
  intros _ H. injection H as <-.
  destruct (0 <=? e) eqn:He.
  - pose proof (Z.pow_nonneg 2 e). nia.
  - apply Z.div_pos; [lia|]. apply Z.pow_pos_nonneg; [lia|].
    apply Z.leb_gt in He. lia.
Qed.

(** *** The loop of [add] *)

(** The loop at index [i + 1] of [x :: array] is the loop at index [i] of
    [array], one position further left. *)
Lemma add_loop_cons (b : RadixBase.t) (to_add : list Z) :
  forall (maxright : Z) (i : nat) (x : Z) (array : list Z),
  add_loop b maxright to_add (S i) (x :: array)
  = (let* array' := add_loop b (maxright - 1) to_add i array in Ok (x :: array')).
Proof.
  induction to_add as [|r to_add IH]; intros maxright i x array; [reflexivity|].
  cbn [add_loop add_at].
  destruct (add_at array i r) as [a1|]; [|reflexivity].
  cbn [bind].
  replace (maxright - Z.of_nat (S i)) with (maxright - 1 - Z.of_nat i) by lia.
  destruct (RadixBase.__getitem__ b (maxright - 1 - Z.of_nat i)) as [factor|];
    [|reflexivity].
  cbn [bind]. change (get_at (x :: a1) (S i)) with (get_at a1 i).
  destruct (get_at a1 i) as [n|]; [|reflexivity].
  cbn [bind].
  destruct ((n <? 0) || (n >=? factor)).
  - destruct (py_mod n factor) as [m|]; [|reflexivity].
    cbn [bind set_at].
    destruct (set_at a1 i m) as [a2|]; [|reflexivity].
    cbn [bind add_at].
    destruct (add_at a2 (S i) (if n >? 0 then 1 else -1)) as [a3|]; [|reflexivity].
    cbn [bind]. apply IH.
  - cbn [bind]. apply IH.
Qed.

Lemma units_from_zeros (b : RadixBase.t) (k : nat) (pos : Z) :
  units_from b pos (repeat 0 k) = 0.
Proof.
  revert pos. induction k as [|k IH]; intros pos; [reflexivity|].
  simpl. rewrite IH. lia.
Qed.

(** Zeros left of the first digit count for nothing. *)
Lemma units_from_app (b : RadixBase.t) (ds : list Z) (k : nat) (pos : Z) :
  units_from b pos (ds ++ repeat 0 k) = units_from b pos ds.
Proof.
  revert pos. induction ds as [|d ds IH]; intros pos.
  - apply units_from_zeros.
  - simpl. rewrite IH. reflexivity.
Qed.

Lemma room_zeros (b : RadixBase.t) (ds : list Z) (k : nat) (pos : Z) :
  in_range b pos ds -> room b pos 1 (repeat 0 k) ds.
Proof.
  revert k pos. induction ds as [|d ds IH]; intros k pos H; [exact I|].
  destruct k as [|k]; [exact I|].
  destruct H as [Hd H]. simpl. repeat split; [lia|lia|]. apply IH, H.
Qed.

Lemma room_digits (b : RadixBase.t) (array : list Z) (k : nat) (pos : Z) :
  in_range b pos (firstn k array) -> room b pos 1 array (repeat 0 k).
Proof.
  revert array pos. induction k as [|k IH]; intros array pos H; [exact I|].
  destruct array as [|x array]; [exact I|].
  destruct H as [Hd H]. simpl. repeat split; [lia|lia|]. apply IH, H.
Qed.

Lemma in_range_prefix (b : RadixBase.t) (ds zs : list Z) (k : nat) (pos : Z) :
  in_range b pos (firstn k (ds ++ zs)) -> in_range b pos (firstn k ds).
Proof.
  revert k pos. induction ds as [|d ds IH]; intros k pos H.
  - rewrite firstn_nil. exact I.
  - destruct k as [|k]; [exact I|].
    destruct H as [Hd H]. split; [exact Hd|]. apply IH, H.
Qed.

Lemma in_range_suffix (b : RadixBase.t) (xs ds : list Z) (pos : Z) :
  in_range b pos (xs ++ ds) -> in_range b (pos - len xs) ds.
Proof.
  revert pos. induction xs as [|x xs IH]; intros pos H.
  - unfold len. simpl. rewrite Z.sub_0_r. exact H.
  - destruct H as [_ H]. apply IH in H.
    replace (pos - len (x :: xs)) with (pos - 1 - len xs)
      by (unfold len; simpl List.length; lia).
    exact H.
Qed.

(** The loop of [add] adds exactly, as long as no position is asked to
    hold twice its radix: the digits it leaves denote the sum, and those
    it went through are within their radices. *)
Lemma add_loop_exact (b : RadixBase.t) (to_add : list Z) :
  forall (maxright h : Z) (array out : list Z),
  add_loop b maxright to_add 0 (h :: array) = Ok out ->
  0 <= h -> Forall (Z.le 0) array ->
  room b maxright 0 (h :: array) to_add ->
  units_from b maxright out
  = units_from b maxright (h :: array) + units_from b maxright to_add
  /\ in_range b maxright (firstn (List.length to_add) out)
  /\ Forall (Z.le 0) out.
Proof.
  induction to_add as [|r to_add IH]; intros maxright h array out H Hh Ha Hroom.
  - injection H as <-. simpl. repeat split; [lia|]. constructor; assumption.
  - destruct Hroom as (Hr & Hlt & Hroom).
    cbn [add_loop add_at bind] in H.
    change (Z.of_nat 0) with 0 in H. rewrite Z.sub_0_r in H.
    destruct (RadixBase.__getitem__ b maxright) as [factor|] eqn:Ef;
      [|discriminate H].
    assert (Hrad : radix_at b maxright = factor)
      by (unfold radix_at; rewrite Ef; reflexivity).
    rewrite Hrad in Hlt. cbn [units_from in_range firstn List.length].
    rewrite Hrad.
    cbn [bind get_at nth_error] in H.
    assert (Hn : (h + r <? 0) = false) by (apply Z.ltb_ge; lia).
    rewrite Hn in H. cbn [orb] in H.
    destruct (h + r >=? factor) eqn:Hge.
    + rewrite Z.geb_leb in Hge. apply Z.leb_le in Hge.
      unfold py_mod in H.
      destruct (factor =? 0) eqn:Hz; [apply Z.eqb_eq in Hz; lia|].
      cbn [bind set_at add_at] in H.
      assert (Hpos : (h + r >? 0) = true) by (apply Z.gtb_lt; lia).
      rewrite Hpos in H.
      destruct array as [|x array]; [discriminate H|].
      cbn [add_at bind] in H.
      rewrite add_loop_cons in H.
      destruct (add_loop b (maxright - 1) to_add 0 ((x + 1) :: array))
        as [out'|] eqn:E; [|discriminate H].
      cbn [bind] in H. injection H as <-.
      pose proof (Forall_inv Ha) as Hx. pose proof (Forall_inv_tail Ha) as Ha'.
      apply IH in E; [|lia|exact Ha'|].
      * destruct E as (Hu & Hin & Hall).
        assert (Hm : (h + r) mod factor = h + r - factor).
        { symmetry. apply Z.mod_unique with (q := 1); lia. }
        rewrite Hm. cbn [units_from in_range firstn]. rewrite Hu.
        cbn [units_from]. repeat split; [lia|lia|lia|exact Hin|].
        constructor; [lia|exact Hall].
      * destruct to_add as [|r' to_add]; [exact I|].
        destruct Hroom as (Hr' & Hlt' & Hroom).
        repeat split; [exact Hr'|lia|exact Hroom].
    + rewrite Z.geb_leb in Hge. apply Z.leb_gt in Hge.
      cbn [bind] in H. rewrite add_loop_cons in H.
      destruct (add_loop b (maxright - 1) to_add 0 array) as [out'|] eqn:E;
        [|discriminate H].
      cbn [bind] in H. injection H as <-.
      cbn [units_from in_range firstn].
      destruct array as [|x array].
      * destruct to_add as [|r' to_add]; [|discriminate E].
        injection E as <-. simpl. repeat split; [lia|lia|lia|].
        constructor; [lia|constructor].
      * pose proof (Forall_inv Ha) as Hx. pose proof (Forall_inv_tail Ha) as Ha'.
        apply IH in E; [|lia|exact Ha'|].
        -- destruct E as (Hu & Hin & Hall). rewrite Hu.
           cbn [units_from]. repeat split; [lia|lia|lia|exact Hin|].
           constructor; [lia|exact Hall].
        -- destruct to_add as [|r' to_add]; [exact I|].
           destruct Hroom as (Hr' & Hlt' & Hroom).
           repeat split; [exact Hr'|lia|exact Hroom].
Qed.

(** *** The operands of the addition in [__round__] *)

Lemma map_one (l : list Z) : map (fun x => 1 * x) l = l.
Proof.
  induction l as [|x l IH]; [reflexivity|].
  simpl map. rewrite IH. destruct x; reflexivity.
Qed.

Lemma map_abs_nonneg (l : list Z) : Forall (Z.le 0) l -> map Z.abs l = l.
Proof.
  induction 1 as [|x l Hx _ IH]; [reflexivity|].
  simpl. rewrite IH, Z.abs_eq by exact Hx. reflexivity.
Qed.

(** The constructor only drops zeros from the front of the integer
    digits. *)
Lemma canon_zeros (l : list Z) :
  l <> [] -> exists k, l = repeat 0 k ++ canon l.
Proof.
  intros Hl. unfold canon.
  destruct (simplify_integer_part_head l) as (k & Hk & _).
  destruct (__simplify_integer_part l) as [|d l'] eqn:E.
  - rewrite app_nil_r in Hk. destruct k as [|k]; [simpl in Hk; congruence|].
    exists k. rewrite Hk. rewrite repeat_snoc. reflexivity.
  - exists k. exact Hk.
Qed.

(** What the optional negation of [__add__] leaves: the digits, the
    remainder, and the sign 1 on both operands when their common sign is
    the one chosen. *)
Lemma maybe_neg_positive (v w : t) :
  (if sign v <? 0 then __neg__ v else Ok v) = Ok w ->
  normal (left v) -> sign v = 1 \/ sign v = -1 ->
  base w = base v /\ left w = left v /\ right w = right v
  /\ remainder w = remainder v /\ sign w = 1.
Proof.
  intros H Hn Hs. destruct (sign v <? 0) eqn:Hneg.
  - apply Z.ltb_lt in Hneg. unfold __neg__ in H.
    pose proof (new_left_normal _ _ _ _ _ _ H Hn) as Hl.
    apply new_fields in H. destruct H as (Hb & Hr & Hrem & Hsg).
    repeat split; auto. lia.
  - apply Z.ltb_ge in Hneg. injection H as <-. repeat split. lia.
Qed.

Lemma resize_same (v : t) (s : Z) : len (right v) = s -> resize v s = Ok v.
Proof. intros <-. unfold resize. rewrite Z.eqb_refl. reflexivity. Qed.

Lemma len_rev_digits (v : t) : len (rev_digits v) = len (left v) + len (right v).
Proof.
  unfold rev_digits, digits, len. rewrite length_rev, length_app. lia.
Qed.

(** The unit [__round__] adds, [type(v)(1, sign=s).shift(n)], whenever it
    is built: its digits, last first, are a 1 and then zeros. *)
Lemma unit_digits (b : RadixBase.t) (s n : Z) (u u' : t) :
  new b [1] [] 0%float s = Ok u -> shift u n = Ok u' -> 0 <= n ->
  base u' = b /\ sign u' = s /\ remainder u' = 0%float
  /\ len (right u') = n /\ normal (left u')
  /\ rev_digits u' = 1 :: repeat 0 (Z.to_nat n).
Proof.
  intros Hu Hu' Hn.
  pose proof (new_left _ _ _ _ _ _ Hu) as Hl.
  apply new_fields in Hu. destruct Hu as (Hb & Hr & Hm & Hs).
  change (canon [1]) with [1] in Hl.
  unfold shift in Hu'. destruct (n =? 0) eqn:Hz.
  - apply Z.eqb_eq in Hz. injection Hu' as <-. subst n.
    unfold rev_digits, digits, normal. rewrite Hl, Hr.
    repeat split; auto.
  - apply Z.eqb_neq in Hz.
    destruct (n >? 0) eqn:Hp;
      [|rewrite Z.gtb_ltb in Hp; apply Z.ltb_ge in Hp; lia].
    unfold digits, repeat_tuple in Hu'. rewrite Hl, Hr in Hu'.
    change (len [1]) with 1 in Hu'.
    destruct (- n >? 1) eqn:Hm1; [apply Z.gtb_lt in Hm1; lia|].
    replace (Z.to_nat (- n)) with 0%nat in Hu' by lia.
    replace (Z.to_nat n) with (S (Z.to_nat (n - 1))) in Hu' |- * by lia.
    set (m := Z.to_nat (n - 1)) in *.
    change (repeat 0 (S m) ++ ([1] ++ []) ++ repeat 0 0)
      with (0 :: (repeat 0 m ++ [1])) in Hu'.
    rewrite slice_prefix, slice_suffix in Hu' by lia.
    change (firstn (Z.to_nat 1) (0 :: (repeat 0 m ++ [1]))) with [0] in Hu'.
    change (skipn (Z.to_nat 1) (0 :: (repeat 0 m ++ [1])))
      with (repeat 0 m ++ [1]) in Hu'.
    pose proof (new_left _ _ _ _ _ _ Hu') as Hl'.
    apply new_fields in Hu'. destruct Hu' as (Hb' & Hr' & Hm' & Hs').
    change (canon [0]) with [0] in Hl'.
    split; [congruence|]. split; [congruence|]. split; [congruence|].
    split; [rewrite Hr', len_app; unfold len, m; rewrite repeat_length; simpl; lia|].
    split; [left; exact Hl'|].
    unfold rev_digits, digits. rewrite Hl', Hr'.
    change ([0] ++ repeat 0 m ++ [1]) with (repeat 0 (S m) ++ [1]).
    rewrite rev_app_distr, rev_repeat_same. reflexivity.
Qed.

(** Adding that unit to a value [a] of the same sign and the same number
    of fractional digits, whose digits are within their radices: the
    whole part [c] of the remainder of [a] is carried into the last
    position, and the digits of the sum denote [units a + 1 + c]. *)
Lemma add_unit_exact (a u x : t) (k : nat) :
  add_same_type a u = Ok x ->
  normal (left a) -> normal (left u) ->
  sign a = 1 \/ sign a = -1 ->
  base u = base a -> sign u = sign a -> remainder u = 0%float ->
  len (right a) = Z.of_nat k -> len (right u) = Z.of_nat k ->
  in_range (base a) (Z.of_nat k) (rev_digits a) ->
  rev_digits u = 1 :: repeat 0 k ->
  base x = base a /\ sign x = sign a /\ len (right x) = Z.of_nat k
  /\ exists c,
      int_of_float (remainder a) = Ok c
      /\ (0 <= c <= radix_at (base a) (Z.of_nat k) ->
          exists z,
            units_from (base a) (Z.of_nat k) (rev_digits x ++ repeat 0 z)
            = units_from (base a) (Z.of_nat k) (rev_digits a) + 1 + c
            /\ in_range (base a) (Z.of_nat k)
                 (firstn (List.length (rev_digits a)) (rev_digits x ++ repeat 0 z))).
Proof.
  intros H Hna Hnu Hs Hbu Hsu Hremu Hra Hru Hin Hu.
  unfold add_same_type in H.
  rewrite Hra, Hru, Z.max_id in H.
  rewrite (resize_same a) in H by exact Hra.
  rewrite (resize_same u) in H by exact Hru.
  cbn [bind] in H. cbv beta zeta in H.
  destruct (__abs__ a) as [abs_a|]; [|discriminate H].
  destruct (__abs__ u) as [abs_u|]; [|discriminate H].
  cbn [bind] in H.
  destruct (__gt__ abs_a (Based abs_u)) as [gt|]; [|discriminate H].
  cbn [bind] in H.
  replace (if gt then sign a else sign u) with (sign a) in H
    by (destruct gt; congruence).
  destruct (if sign a <? 0 then __neg__ a else Ok a) as [va|] eqn:Eva;
    [|discriminate H].
  destruct (if sign a <? 0 then __neg__ u else Ok u) as [vb|] eqn:Evb;
    [|discriminate H].
  cbn [bind] in H.
  apply maybe_neg_positive in Eva; [|exact Hna|exact Hs].
  rewrite <- Hsu in Evb, Hs.
  apply maybe_neg_positive in Evb; [|exact Hnu|exact Hs].
  rewrite Hsu in Hs.
  destruct Eva as (Hb1 & Hl1 & Hr1 & Hm1 & Hs1).
  destruct Evb as (Hb2 & Hl2 & Hr2 & Hm2 & Hs2).
  rewrite Hm1, Hs1, Hm2, Hs2, Hremu, !fmul_int_one in H.
  cbn [bind] in H. rewrite int_of_float_add_zero in H.
  destruct (int_of_float (remainder a)) as [c|] eqn:Ec; [|discriminate H].
  cbn [bind] in H.
  destruct (fsub_int (remainder a + 0) c) as [rem'|]; [|discriminate H].
  cbn [bind] in H.
  assert (Hda : rev_digits va = rev_digits a)
    by (unfold rev_digits, digits; rewrite Hl1, Hr1; reflexivity).
  assert (Hdb : rev_digits vb = 1 :: repeat 0 k)
    by (rewrite <- Hu; unfold rev_digits, digits; rewrite Hl2, Hr2; reflexivity).
  assert (Hlena : len (digits va) = len (left a) + Z.of_nat k)
    by (unfold digits; rewrite len_app, Hl1, Hr1, Hra; reflexivity).
  assert (Hlenu : len (left u) = 1).
  { pose proof (len_rev_digits u) as Hl. rewrite Hu, Hru in Hl.
    unfold len in Hl at 1. simpl List.length in Hl. rewrite repeat_length in Hl.
    lia. }
  assert (Hlenb : len (digits vb) = 1 + Z.of_nat k)
    by (unfold digits; rewrite len_app, Hl2, Hr2, Hru, Hlenu; reflexivity).
  assert (Hla : 1 <= len (left a)).
  { unfold len. destruct (left a) as [|d l] eqn:E; [|simpl; lia].
    destruct Hna as [Hna|Hna]; [discriminate|simpl in Hna; lia]. }
  rewrite Hlena, Hlenb in H.
  replace ((len (left a) + Z.of_nat k) `max` (1 + Z.of_nat k))
    with (len (left a) + Z.of_nat k) in H by lia.
  replace (len (left a) `max` len (left u)) with (len (left a)) in H by lia.
  set (L := (List.length (left a) + k)%nat).
  assert (HL : len (left a) + Z.of_nat k = Z.of_nat L) by (unfold L, len; lia).
  rewrite HL in H. unfold repeat_tuple in H at 1 2. rewrite Nat2Z.id in H.
  destruct (add (base a) (Z.of_nat k) (len ([c] ++ repeat 0 L))
              ([c] ++ repeat 0 L) va) as [n1|] eqn:E1; [|discriminate H].
  cbn [bind] in H.
  destruct (add (base a) (Z.of_nat k) (len n1) n1 vb) as [n2|] eqn:E2;
    [|discriminate H].
  cbn [bind] in H.
  pose proof (add_len _ _ _ _ _ _ E1) as Hn1.
  pose proof (add_len _ _ _ _ _ _ E2) as Hn2.
  assert (Hlen0 : len ([c] ++ repeat 0 L) = Z.of_nat (S L))
    by (unfold len; simpl; rewrite repeat_length; lia).
  rewrite Hlen0 in Hn1. rewrite Hn1 in Hn2.
  unfold add in E1. rewrite Hs1, Hda, map_one, Hlen0, Hlena, HL in E1.
  replace (Z.of_nat (S L) - Z.of_nat L - 1) with 0 in E1 by lia.
  unfold repeat_tuple in E1. simpl (repeat 0 (Z.to_nat 0)) in E1.
  rewrite app_nil_r in E1.
  change ([c] ++ repeat 0 L) with (c :: repeat 0 L) in E1.
  unfold add in E2. rewrite Hs2, Hdb, map_one, Hn1, Hlenb in E2.
  replace (Z.of_nat (S L) - (1 + Z.of_nat k) - 1)
    with (Z.of_nat (L - 1 - k)) in E2 by (unfold L, len in *; lia).
  unfold repeat_tuple in E2. rewrite Nat2Z.id in E2.
  change ((1 :: repeat 0 k) ++ repeat 0 (L - 1 - k))
    with (1 :: (repeat 0 k ++ repeat 0 (L - 1 - k))) in E2.
  rewrite <- repeat_app in E2.
  replace (k + (L - 1 - k))%nat with (L - 1)%nat in E2
    by (unfold L, len in *; lia).
  pose proof (new_left _ _ _ _ _ _ H) as Hlx.
  apply new_fields in H. destruct H as (Hbx & Hrx & _ & Hsx).
  assert (Hlen2 : List.length (map Z.abs (rev n2)) = S L)
    by (rewrite length_map, length_rev; unfold len in Hn2; lia).
  assert (Hm : Z.to_nat (len (left a) + 1) = S (List.length (left a)))
    by (unfold len; lia).
  rewrite slice_prefix, Hm in Hlx by lia.
  rewrite slice_suffix, Hm in Hrx by lia.
  split; [exact Hbx|]. split; [exact Hsx|]. split.
  { rewrite Hrx. unfold len. rewrite length_skipn, Hlen2. unfold L. lia. }
  exists c. split; [reflexivity|]. intros Hc.
  assert (HD : List.length (rev_digits a) = L).
  { pose proof (len_rev_digits a) as Hl. unfold len in Hl, Hra. unfold L. lia. }
  destruct (rev_digits a) as [|d0 D] eqn:ED;
    [simpl in HD; unfold L, len in *; lia|].
  destruct Hin as [Hd0 HinD].
  apply add_loop_exact in E1;
    [|lia|apply Forall_forall; intros y Hy; apply repeat_spec in Hy; lia
     |repeat split; [lia|lia|apply room_zeros, HinD]].
  destruct E1 as (Hu1 & Hin1 & Hall1).
  cbn [units_from] in Hu1. rewrite units_from_zeros in Hu1.
  destruct n1 as [|h arr]; [unfold len in Hn1; simpl in Hn1; lia|].
  cbn [List.length firstn] in Hin1. destruct Hin1 as [Hh Hin1].
  pose proof (Forall_inv Hall1) as Hh0.
  pose proof (Forall_inv_tail Hall1) as Harr.
  assert (HLD : (L - 1)%nat = List.length D) by (simpl in HD; lia).
  apply add_loop_exact in E2;
    [|exact Hh0|exact Harr
     |repeat split; [lia|lia|rewrite HLD; apply room_digits, Hin1]].
  destruct E2 as (Hu2 & Hin2 & Hall2).
  cbn [units_from] in Hu2. rewrite units_from_zeros in Hu2.
  cbn [List.length] in Hin2. rewrite repeat_length, HLD in Hin2.
  rewrite map_abs_nonneg in Hlx, Hrx by (apply Forall_rev, Hall2).
  destruct (canon_zeros (firstn (S (List.length (left a))) (rev n2))) as (z & Hz).
  { intros E. apply (f_equal (@List.length Z)) in E.
    rewrite length_firstn, length_rev in E. unfold len in Hn2.
    cbn [List.length] in E. lia. }
  exists z.
  assert (Hn2' : rev_digits x ++ repeat 0 z = n2).
  { unfold rev_digits, digits. rewrite Hlx, Hrx, rev_app_distr, <- app_assoc.
    rewrite <- (rev_repeat_same 0 z), <- rev_app_distr, <- Hz, <- rev_app_distr.
    rewrite firstn_skipn. apply rev_involutive. }
  rewrite Hn2'. split; [|exact Hin2].
  rewrite Hu2. cbn [units_from] in Hu1 |- *.
  rewrite Z.mul_0_r in Hu1 |- *. lia.
Qed.

Lemma resized_digits (v r : t) (n : Z) :
  resize v n = Ok r -> normal (left v) -> 0 <= n <= len (right v) ->
  base r = base v /\ sign r = sign v /\ left r = left v
  /\ right r = firstn (Z.to_nat n) (right v) /\ len (right r) = n.
Proof.
  intros H Hn Hle. apply resize_fields in H.
  destruct H as (_ & Hb & Hs & Hlen & Hpre & Hl).
  rewrite Z.min_l in Hpre by lia.
  rewrite firstn_all2 in Hpre by (unfold len in Hlen; lia).
  auto.
Qed.

Lemma proper_prefix (v : t) (n : Z) :
  proper v -> 0 <= n <= len (right v) ->
  in_range (base v) n (rev (left v ++ firstn (Z.to_nat n) (right v))).
Proof.
  unfold proper, rev_digits, digits, significant. intros H Hn.
  rewrite <- (firstn_skipn (Z.to_nat n) (right v)) in H at 2.
  rewrite app_assoc, rev_app_distr in H. apply in_range_suffix in H.
  replace (len (right v) - len (rev (skipn (Z.to_nat n) (right v)))) with n in H.
  - exact H.
  - unfold len in *. rewrite length_rev, length_skipn. lia.
Qed.

(** X25: what [round(v, n)] adds, for a valid [v] whose digits are each
    below the radix of their position and [n] at most its number of
    fractional digits.  Let [r] be [v] resized to [n] positions and [t]
    be [v] truncated to [n] positions.  When the remainder of [r] is not
    at least 0.5 the result is [t].  When it is, the result has the sign
    of [v] and its digits denote those of [t] plus [1 + c] units of
    position [n], where [c] is the whole part of the remainder of [r]
    (provided [c] is at most the radix of position [n]); the carry is
    propagated, every digit of the result at a position where [t] has one
    being below the radix of that position.  So one unit is added exactly
    when [c] is 0. *)
Theorem round_units (v w : t) (n : Z) :
  valid v -> proper v -> 0 <= n <= significant v ->
  __round__ v (Some n) = Ok w ->
  exists r t,
    resize v n = Ok r /\ truncate v n = Ok t
    /\ sign w = sign v
    /\ (fge (remainder r) 0.5%float = false -> w = t)
    /\ (fge (remainder r) 0.5%float = true ->
        exists c,
          int_of_float (remainder r) = Ok c /\ 0 <= c
          /\ (c <= radix_at (base v) n ->
              units w = units t + 1 + c
              /\ in_range (base v) n
                   (firstn (List.length (rev_digits t)) (rev_digits w)))).
Proof.
  intros Hv Hp Hn H. unfold significant in Hn.
  pose proof (valid_normal v Hv) as Hnorm.
  pose proof (valid_sign v Hv) as Hs.
  set (k := Z.to_nat n).
  set (t0 := mk (base v) (left v) (firstn k (right v)) 0%float (sign v)).
  assert (Ht : truncate v n = Ok t0).
  { unfold truncate.
    destruct (n >? len (right v)) eqn:Hgt; [apply Z.gtb_lt in Hgt; lia|].
    rewrite slice_prefix by lia. exact (new_frame _ _ _ _ _ _ _ _ Hv). }
  unfold __round__ in H.
  destruct (resize v n) as [r|] eqn:Er; [|discriminate H].
  cbn [bind] in H.
  destruct (resized_digits _ _ _ Er Hnorm Hn) as (Hbr & Hsr & Hlr & Hrr & Hlenr).
  fold k in Hrr.
  exists r, t0. split; [reflexivity|]. split; [exact Ht|].
  destruct (fge (remainder r) 0.5%float) eqn:Hf.
  - destruct (new (base v) [1] [] 0%float (sign v)) as [u|] eqn:Eu;
      [|discriminate H].
    cbn [bind] in H.
    destruct (shift u n) as [u'|] eqn:Eu'; [|discriminate H].
    cbn [bind] in H.
    destruct (__add__ r (Based u')) as [x|] eqn:Ex; [|discriminate H].
    cbn [bind] in H.
    destruct (unit_digits _ _ _ _ _ Eu Eu' (proj1 Hn))
      as (Hbu & Hsu & Hmu & Hru & Hnu & Hdu).
    fold k in Hdu.
    unfold __add__ in Ex.
    assert (Hst : same_type r u' = true) by (apply same_type_base; congruence).
    rewrite Hst in Ex.
    pose proof (add_same_type_normal _ _ _ Ex) as Hnx.
    assert (Hk : Z.of_nat k = n) by (unfold k; lia).
    apply (add_unit_exact r u' x k) in Ex;
      [|rewrite Hlr; exact Hnorm|exact Hnu|rewrite Hsr; exact Hs|congruence
       |congruence|exact Hmu|lia|lia
       |unfold rev_digits, digits; rewrite Hbr, Hlr, Hrr, Hk;
        apply proper_prefix; [exact Hp|exact Hn]
       |exact Hdu].
    destruct Ex as (Hbx & Hsx & Hlenx & c & Ec & Hadd).
    unfold truncate in H.
    destruct (n >? len (right x)) eqn:Hgt; [apply Z.gtb_lt in Hgt; lia|].
    pose proof (new_left_normal _ _ _ _ _ _ H Hnx) as Hlw.
    apply new_fields in H. destruct H as (Hbw & Hrw & Hmw & Hsw).
    rewrite slice_prefix in Hrw by lia.
    rewrite firstn_all2 in Hrw by (unfold len in Hlenx; lia).
    split; [congruence|]. split; [discriminate|]. intros _.
    exists c. split; [exact Ec|].
    split; [exact (int_of_float_half _ _ Hf Ec)|]. intros Hc.
    destruct Hadd as (z & Hval & Hin).
    { rewrite Hbr, Hk. split; [exact (int_of_float_half _ _ Hf Ec)|exact Hc]. }
    assert (Hdw : rev_digits w = rev_digits x)
      by (unfold rev_digits, digits; rewrite Hlw, Hrw; reflexivity).
    assert (Hdt : rev_digits t0 = rev_digits r)
      by (unfold rev_digits, digits; rewrite Hlr, Hrr; reflexivity).
    rewrite units_from_app, Hbr in Hval.
    apply in_range_prefix in Hin. rewrite Hbr, Hk in Hin.
    unfold units, significant. rewrite Hdw, Hdt, Hbw, Hbx, Hbr, Hrw, Hlenx.
    split; [|exact Hin].
    rewrite Hval. unfold t0. cbn [base right].
    replace (len (firstn k (right v))) with (Z.of_nat k); [reflexivity|].
    unfold len in *. rewrite length_firstn. lia.
  - cbn [bind] in H. unfold truncate in H.
    destruct (n >? len (right r)) eqn:Hgt; [apply Z.gtb_lt in Hgt; lia|].
    rewrite slice_prefix in H by lia.
    rewrite firstn_all2 in H by (unfold len in Hlenr; lia).
    rewrite Hbr, Hlr, Hrr, Hsr in H.
    rewrite (new_frame _ _ _ _ _ _ _ _ Hv) in H. injection H as <-.
    split; [reflexivity|]. split; [reflexivity|discriminate].
Qed.

Lemma round_units_witness :
  valid late_hour /\ proper late_hour
  /\ __round__ late_hour (Some 1) = Ok (mk RadixBase.temporal [1] [1] 0%float 1)
  /\ units (mk RadixBase.temporal [1] [1] 0%float 1)
     = units (mk RadixBase.temporal [0] [23] 0%float 1) + 1 + 1.
Proof.
  assert (Hv : valid late_hour) by (vm_compute; reflexivity).
  assert (Hp : proper late_hour) by (vm_compute; intuition discriminate).
  assert (Hn : 0 <= 1 <= significant late_hour) by (vm_compute; intuition discriminate).
  assert (H : __round__ late_hour (Some 1)
              = Ok (mk RadixBase.temporal [1] [1] 0%float 1))
    by (vm_compute; reflexivity).
  assert (Hr : resize late_hour 1
               = Ok (mk RadixBase.temporal [0] [23] 1.25%float 1))
    by (vm_compute; reflexivity).
  assert (Ht : truncate late_hour 1
               = Ok (mk RadixBase.temporal [0] [23] 0%float 1))
    by (vm_compute; reflexivity).
  split; [exact Hv|]. split; [exact Hp|]. split; [exact H|].
  destruct (round_units _ _ _ Hv Hp Hn H) as (r & t & Er & Et & _ & _ & Hup).
  rewrite Hr in Er. injection Er as <-.
  rewrite Ht in Et. injection Et as <-.
  assert (Hf : fge (remainder (mk RadixBase.temporal [0] [23] 1.25%float 1))
                 0.5%float = true) by (vm_compute; reflexivity).
  destruct (Hup Hf) as (c & Ec & _ & Hlaw).
  assert (Hc : int_of_float (remainder (mk RadixBase.temporal [0] [23] 1.25%float 1))
               = Ok 1) by (vm_compute; reflexivity).
  rewrite Hc in Ec. injection Ec as <-.
  apply Hlaw. vm_compute. discriminate.
Defined.
